(** * SpeechPlayer: a shallow embedding of the streaming audio player

    The TypeScript class [SpeechPlayer] plays compressed audio while it is
    still arriving.  It has two pipelines: the MediaSource pipeline
    ([useAudioContext = false], "StreamingBuffer" mode) and the AudioContext
    fallback ([useAudioContext = true], "ManualDecode" mode).

    JavaScript runs every call and every event handler to completion, so each
    method, each listener and each continuation after an [await] is one pure
    function on the state of the player.  Platform objects (audio element,
    media source, source buffer, audio context, timers) are records holding
    the attributes the class reads; what the class asks of the platform is
    appended to an effect log.  JavaScript numbers that hold times are
    rationals here. *)

From Stdlib Require Import ZArith QArith Qabs Qminmax Lqa Bool Lia String.
From Stdlib Require Import Strings.Byte List.
Import ListNotations.

Local Open Scope Z_scope.

(** ** Exceptions *)

Inductive exception : Type :=
| ReferenceError (msg : string)
| Error (msg : string)
| RangeError
| TypeError
| EncodingError.

Inductive completion (A : Type) : Type :=
| Normal (a : A)
| Throw (e : exception).

Arguments Normal {A} a.
Arguments Throw {A} e.

Definition bind {A B : Type} (c : completion A) (k : A -> completion B)
  : completion B :=
  match c with
  | Normal a => k a
  | Throw e => Throw e
  end.

Notation "x <- c ;; k" := (bind c (fun x => k))
  (at level 61, c at next level, right associativity).

Definition throws {A : Type} (c : completion A) : Prop :=
  exists e, c = Throw e.

(** ** Uint8Array *)

Definition Uint8Array : Type := list byte.

Definition byte_val (b : byte) : Z := Z.of_N (Byte.to_N b).

Definition length_of (a : Uint8Array) : Z := Z.of_nat (List.length a).

(** [new Uint8Array(n)]: n zero bytes. *)
Definition new_Uint8Array (n : Z) : Uint8Array := repeat x00 (Z.to_nat n).

(** [target.set(source, offset)]: overwrites [target] from [offset] on; a
    source that does not fit is a RangeError. *)
Definition set_from (target source : Uint8Array) (offset : Z)
  : completion Uint8Array :=
  if (0 <=? offset) && (offset + length_of source <=? length_of target) then
    Normal (firstn (Z.to_nat offset) target ++ source
            ++ skipn (Z.to_nat (offset + length_of source)) target)
  else Throw RangeError.

(** Relative index of [slice]: negative counts from the end, then clamped. *)
Definition rel_index (len k : Z) : Z :=
  if k <? 0 then Z.max (len + k) 0 else Z.min k len.

(** [a.slice(start, fin)]. *)
Definition slice (a : Uint8Array) (start fin : Z) : Uint8Array :=
  let len := length_of a in
  let k := rel_index len start in
  let final := rel_index len fin in
  let count := Z.max (final - k) 0 in
  firstn (Z.to_nat count) (skipn (Z.to_nat k) a).

(** [a.slice(start)]: to the end. *)
Definition slice_from (a : Uint8Array) (start : Z) : Uint8Array :=
  slice a start (length_of a).

(** [a[i]]: [None] is [undefined]. *)
Definition get (a : Uint8Array) (i : Z) : option byte :=
  if i <? 0 then None else nth_error a (Z.to_nat i).

(** A typed array as the code finds it later on.  A call that takes the
    array's buffer over detaches it: the view is then empty, and [set]
    refuses it as a source. *)
Inductive TypedArray : Type :=
| intact (bytes : Uint8Array)
| detached.

(** [a.length]: 0 for a detached view. *)
Definition length_now (a : TypedArray) : Z :=
  match a with
  | intact bytes => length_of bytes
  | detached => 0
  end.

(** [target.set(source, offset)] for a source that may be detached: a
    detached source is a TypeError. *)
Definition set_from_array (target : Uint8Array) (source : TypedArray)
  (offset : Z) : completion Uint8Array :=
  match source with
  | intact bytes => set_from target bytes offset
  | detached => Throw TypeError
  end.

(** ** The frame-boundary scan of processAudioContextQueue *)

(** [a[i] === 0xFF && (a[i + 1] & 0xE0) === 0xE0]; [undefined === 0xFF] is
    false and [undefined & 0xE0] is 0. *)
Definition sync_at (a : Uint8Array) (i : Z) : bool :=
  match get a i with
  | Some x =>
      (byte_val x =? 0xFF) &&
      match get a (i + 1) with
      | Some y => Z.land (byte_val y) 0xE0 =? 0xE0
      | None => false
      end
  | None => false
  end.

(** The loop [for (i = ...; i >= 0; i--)] with [k = i + 1] iterations left;
    the result is [cutIndex], -1 when the loop ends without a [break]. *)
Fixpoint scan_down (a : Uint8Array) (k : nat) : Z :=
  match k with
  | O => -1
  | S i => if sync_at a (Z.of_nat i) then Z.of_nat i else scan_down a i
  end.

(** [cutIndex] after the loop that starts at [i = length - 2]. *)
Definition cutIndex (a : Uint8Array) : Z :=
  scan_down a (Z.to_nat (length_of a - 2 + 1)).

(** What the claim calls a frame boundary at [i]. *)
Definition boundary (a : Uint8Array) (i : Z) : Prop :=
  0 <= i <= length_of a - 2 /\
  exists x y, get a i = Some x /\ get a (i + 1) = Some y /\
              byte_val x = 0xFF /\ Z.land (byte_val y) 0xE0 = 0xE0.

(** ** Platform objects, as far as the class reads them *)

Inductive AudioContextState : Type := suspended | running | closed.

Inductive ReadyState : Type := rs_closed | rs_open | rs_ended.

Record AudioContext : Type := mkAudioContext {
  ctx_state : AudioContextState;
  currentTime : Q
}.

Record HTMLAudioElement : Type := mkAudio { el_paused : bool }.

Record MediaSource : Type := mkMediaSource { readyState : ReadyState }.

Record SourceBuffer : Type := mkSourceBuffer { updating : bool }.

Record AudioBuffer : Type := mkAudioBuffer { duration : Q }.

(** [interface Options]: a callback is either given or not. *)
Record Options : Type := mkOptions {
  onPlaying : bool;
  onPause : bool;
  onChunkEnd : bool;
  mimeType : option string;
  opt_audio : option HTMLAudioElement
}.

(** What a pending timeout runs when it fires. *)
Inductive task : Type :=
| stall_task      (* the callback armed by the "waiting" listener *)
| pause_task.     (* the fallback armed by pause() *)

(** Calls into the platform and into the caller's callbacks. *)
Inductive effect : Type :=
| DecodeAudioData (data : Uint8Array)
| SourceStart (when : Q) (buffer : AudioBuffer)
| CallOnPlaying
| CallOnPause
| CallOnChunkEnd
| AppendBuffer (chunk : Uint8Array)
| EndOfStream
| RemoveSourceBuffer
| Abort
| AudioPlay
| AudioPause
| ContextResume
| ContextSuspend
| ContextClose
| SetTimeout (id : Z) (ms : Z)
| ClearTimeout (id : Z)
| ResolveInit
| ConsoleWarn
| ReleaseLock.

(** ** The player

    The first twelve fields are the fields of the class.  [mediaSource],
    [sourceBuffer] and [audioContext] hold an object of their declared type;
    until init or sourceOpenHandle assigns the real one they hold a closed
    media source, an idle buffer and a suspended context, which the class
    never reads.  [audio] may be undefined: the constructor sets it only when
    options are passed, and the getter and destroy test it.  [initResolve]
    says whether the resolver of the init promise is stored.

    [timer] is the variable closed over by the listeners that the latest run
    of sourceOpenHandle registered.

    The last five fields are the platform's side: the pending timeouts and
    the next timeout id, the byte ranges of the decodes still pending (each
    is the [dataToDecode] of its continuation), the number of started buffer
    sources whose "ended" has not fired, and the effect log.

    Platform calls are taken to return normally, and so are the caller's
    callbacks.  decodeAudioData takes over the buffer it is given, which
    detaches the array in the hands of the class. *)
Record SpeechPlayer : Type := mkSpeechPlayer {
  audio : option HTMLAudioElement;
  mediaSource : MediaSource;
  sourceBuffer : SourceBuffer;
  initResolve : bool;
  sourceBufferCache : list Uint8Array;
  destroyed : bool;
  mediaSourceOpened : bool;
  options : Options;
  audioContext : AudioContext;
  nextStartTime : Q;
  pendingBuffer : Uint8Array;
  useAudioContext : bool;
  timer : Z;
  timeouts : list (Z * task);
  next_id : Z;
  decoding : list Uint8Array;
  sources : nat;
  log : list effect
}.

Definition set_audio (v : option HTMLAudioElement) (s : SpeechPlayer)
  : SpeechPlayer :=
  mkSpeechPlayer v (mediaSource s) (sourceBuffer s) (initResolve s)
    (sourceBufferCache s) (destroyed s) (mediaSourceOpened s) (options s)
    (audioContext s) (nextStartTime s) (pendingBuffer s) (useAudioContext s)
    (timer s) (timeouts s) (next_id s) (decoding s) (sources s) (log s).

Definition set_mediaSource (v : MediaSource) (s : SpeechPlayer)
  : SpeechPlayer :=
  mkSpeechPlayer (audio s) v (sourceBuffer s) (initResolve s)
    (sourceBufferCache s) (destroyed s) (mediaSourceOpened s) (options s)
    (audioContext s) (nextStartTime s) (pendingBuffer s) (useAudioContext s)
    (timer s) (timeouts s) (next_id s) (decoding s) (sources s) (log s).

Definition set_sourceBuffer (v : SourceBuffer) (s : SpeechPlayer)
  : SpeechPlayer :=
  mkSpeechPlayer (audio s) (mediaSource s) v (initResolve s)
    (sourceBufferCache s) (destroyed s) (mediaSourceOpened s) (options s)
    (audioContext s) (nextStartTime s) (pendingBuffer s) (useAudioContext s)
    (timer s) (timeouts s) (next_id s) (decoding s) (sources s) (log s).

Definition set_initResolve (v : bool) (s : SpeechPlayer) : SpeechPlayer :=
  mkSpeechPlayer (audio s) (mediaSource s) (sourceBuffer s) v
    (sourceBufferCache s) (destroyed s) (mediaSourceOpened s) (options s)
    (audioContext s) (nextStartTime s) (pendingBuffer s) (useAudioContext s)
    (timer s) (timeouts s) (next_id s) (decoding s) (sources s) (log s).

Definition set_sourceBufferCache (v : list Uint8Array) (s : SpeechPlayer)
  : SpeechPlayer :=
  mkSpeechPlayer (audio s) (mediaSource s) (sourceBuffer s) (initResolve s) v
    (destroyed s) (mediaSourceOpened s) (options s) (audioContext s)
    (nextStartTime s) (pendingBuffer s) (useAudioContext s) (timer s)
    (timeouts s) (next_id s) (decoding s) (sources s) (log s).

Definition set_destroyed (v : bool) (s : SpeechPlayer) : SpeechPlayer :=
  mkSpeechPlayer (audio s) (mediaSource s) (sourceBuffer s) (initResolve s)
    (sourceBufferCache s) v (mediaSourceOpened s) (options s) (audioContext s)
    (nextStartTime s) (pendingBuffer s) (useAudioContext s) (timer s)
    (timeouts s) (next_id s) (decoding s) (sources s) (log s).

Definition set_mediaSourceOpened (v : bool) (s : SpeechPlayer) : SpeechPlayer :=
  mkSpeechPlayer (audio s) (mediaSource s) (sourceBuffer s) (initResolve s)
    (sourceBufferCache s) (destroyed s) v (options s) (audioContext s)
    (nextStartTime s) (pendingBuffer s) (useAudioContext s) (timer s)
    (timeouts s) (next_id s) (decoding s) (sources s) (log s).

Definition set_audioContext (v : AudioContext) (s : SpeechPlayer)
  : SpeechPlayer :=
  mkSpeechPlayer (audio s) (mediaSource s) (sourceBuffer s) (initResolve s)
    (sourceBufferCache s) (destroyed s) (mediaSourceOpened s) (options s) v
    (nextStartTime s) (pendingBuffer s) (useAudioContext s) (timer s)
    (timeouts s) (next_id s) (decoding s) (sources s) (log s).

Definition set_nextStartTime (v : Q) (s : SpeechPlayer) : SpeechPlayer :=
  mkSpeechPlayer (audio s) (mediaSource s) (sourceBuffer s) (initResolve s)
    (sourceBufferCache s) (destroyed s) (mediaSourceOpened s) (options s)
    (audioContext s) v (pendingBuffer s) (useAudioContext s) (timer s)
    (timeouts s) (next_id s) (decoding s) (sources s) (log s).

Definition set_pendingBuffer (v : Uint8Array) (s : SpeechPlayer)
  : SpeechPlayer :=
  mkSpeechPlayer (audio s) (mediaSource s) (sourceBuffer s) (initResolve s)
    (sourceBufferCache s) (destroyed s) (mediaSourceOpened s) (options s)
    (audioContext s) (nextStartTime s) v (useAudioContext s) (timer s)
    (timeouts s) (next_id s) (decoding s) (sources s) (log s).

Definition set_useAudioContext (v : bool) (s : SpeechPlayer) : SpeechPlayer :=
  mkSpeechPlayer (audio s) (mediaSource s) (sourceBuffer s) (initResolve s)
    (sourceBufferCache s) (destroyed s) (mediaSourceOpened s) (options s)
    (audioContext s) (nextStartTime s) (pendingBuffer s) v (timer s)
    (timeouts s) (next_id s) (decoding s) (sources s) (log s).

Definition set_timer (v : Z) (s : SpeechPlayer) : SpeechPlayer :=
  mkSpeechPlayer (audio s) (mediaSource s) (sourceBuffer s) (initResolve s)
    (sourceBufferCache s) (destroyed s) (mediaSourceOpened s) (options s)
    (audioContext s) (nextStartTime s) (pendingBuffer s) (useAudioContext s) v
    (timeouts s) (next_id s) (decoding s) (sources s) (log s).

Definition set_timeouts (v : list (Z * task)) (s : SpeechPlayer)
  : SpeechPlayer :=
  mkSpeechPlayer (audio s) (mediaSource s) (sourceBuffer s) (initResolve s)
    (sourceBufferCache s) (destroyed s) (mediaSourceOpened s) (options s)
    (audioContext s) (nextStartTime s) (pendingBuffer s) (useAudioContext s)
    (timer s) v (next_id s) (decoding s) (sources s) (log s).

Definition set_next_id (v : Z) (s : SpeechPlayer) : SpeechPlayer :=
  mkSpeechPlayer (audio s) (mediaSource s) (sourceBuffer s) (initResolve s)
    (sourceBufferCache s) (destroyed s) (mediaSourceOpened s) (options s)
    (audioContext s) (nextStartTime s) (pendingBuffer s) (useAudioContext s)
    (timer s) (timeouts s) v (decoding s) (sources s) (log s).

Definition set_decoding (v : list Uint8Array) (s : SpeechPlayer)
  : SpeechPlayer :=
  mkSpeechPlayer (audio s) (mediaSource s) (sourceBuffer s) (initResolve s)
    (sourceBufferCache s) (destroyed s) (mediaSourceOpened s) (options s)
    (audioContext s) (nextStartTime s) (pendingBuffer s) (useAudioContext s)
    (timer s) (timeouts s) (next_id s) v (sources s) (log s).

Definition set_sources (v : nat) (s : SpeechPlayer) : SpeechPlayer :=
  mkSpeechPlayer (audio s) (mediaSource s) (sourceBuffer s) (initResolve s)
    (sourceBufferCache s) (destroyed s) (mediaSourceOpened s) (options s)
    (audioContext s) (nextStartTime s) (pendingBuffer s) (useAudioContext s)
    (timer s) (timeouts s) (next_id s) (decoding s) v (log s).

Definition set_log (v : list effect) (s : SpeechPlayer) : SpeechPlayer :=
  mkSpeechPlayer (audio s) (mediaSource s) (sourceBuffer s) (initResolve s)
    (sourceBufferCache s) (destroyed s) (mediaSourceOpened s) (options s)
    (audioContext s) (nextStartTime s) (pendingBuffer s) (useAudioContext s)
    (timer s) (timeouts s) (next_id s) (decoding s) (sources s) v.

(** ** Calls into the platform *)

Definition emit (e : effect) (s : SpeechPlayer) : SpeechPlayer :=
  set_log (log s ++ [e]) s.

(** [cb && cb()] for an optional callback. *)
Definition call (given : bool) (e : effect) (s : SpeechPlayer)
  : SpeechPlayer :=
  if given then emit e s else s.

(** [setTimeout(task, ms)]: a fresh non-zero id. *)
Definition setTimeout (t : task) (ms : Z) (s : SpeechPlayer)
  : Z * SpeechPlayer :=
  let id := next_id s in
  (id, emit (SetTimeout id ms)
         (set_next_id (id + 1) (set_timeouts (timeouts s ++ [(id, t)]) s))).

Definition other_than (id : Z) (p : Z * task) : bool := negb (fst p =? id).

Definition clearTimeout (id : Z) (s : SpeechPlayer) : SpeechPlayer :=
  emit (ClearTimeout id) (set_timeouts (filter (other_than id) (timeouts s)) s).

(** [sourceBuffer.appendBuffer(chunk)]: the buffer is updating until the
    platform fires "updateend". *)
Definition appendBuffer (chunk : Uint8Array) (s : SpeechPlayer)
  : SpeechPlayer :=
  emit (AppendBuffer chunk) (set_sourceBuffer (mkSourceBuffer true) s).

Definition endOfStream (s : SpeechPlayer) : SpeechPlayer :=
  emit EndOfStream (set_mediaSource (mkMediaSource rs_ended) s).

Definition audio_play (s : SpeechPlayer) : SpeechPlayer :=
  emit AudioPlay (set_audio (Some (mkAudio false)) s).

Definition audio_pause (s : SpeechPlayer) : SpeechPlayer :=
  emit AudioPause (set_audio (Some (mkAudio true)) s).

(** [audioContext.decodeAudioData(data.buffer)]: the decoder takes the
    buffer over, and the promise stays pending until the platform settles
    it. *)
Definition decodeAudioData (data : Uint8Array) (s : SpeechPlayer)
  : SpeechPlayer :=
  emit (DecodeAudioData data) (set_decoding (decoding s ++ [data]) s).

(** The caller's view of an array whose buffer went to the decoder. *)
Definition after_transfer (data : Uint8Array) : TypedArray := detached.

Definition Qltb (x y : Q) : bool :=
  match (x ?= y)%Q with Lt => true | _ => false end.

Definition is_open (r : ReadyState) : bool :=
  match r with rs_open => true | _ => false end.

Definition is_suspended (c : AudioContextState) : bool :=
  match c with suspended => true | _ => false end.

Definition is_running (c : AudioContextState) : bool :=
  match c with running => true | _ => false end.

Definition is_closed (c : AudioContextState) : bool :=
  match c with closed => true | _ => false end.

(** ** ManualDecode pipeline *)

(** processAudioContextQueue up to its [await]: the scan, the split and the
    call of the decoder.  The rest of the function is [decode_settled]. *)
Definition processAudioContextQueue (s : SpeechPlayer) : SpeechPlayer :=
  if length_of (pendingBuffer s) =? 0 then s
  else
    let cut := cutIndex (pendingBuffer s) in
    if cut >? 0 then
      let dataToDecode := slice (pendingBuffer s) 0 cut in
      let remaining := slice_from (pendingBuffer s) cut in
      let s := set_pendingBuffer remaining s in
      decodeAudioData dataToDecode s
    else s.

(** The "ended" listener that schedulePlayback puts on a buffer source.
    The code compares doubles: on rationals the test of the tolerance gives
    the same answer except within rounding distance of 0.1. *)
Definition onended (s : SpeechPlayer) : SpeechPlayer :=
  if (length_of (pendingBuffer s) =? 0)
     && Qltb (Qabs (nextStartTime s - currentTime (audioContext s))) (1 # 10)
  then call (onChunkEnd (options s)) CallOnChunkEnd s
  else s.

Definition schedulePlayback (buffer : AudioBuffer) (s : SpeechPlayer)
  : SpeechPlayer :=
  let start := nextStartTime s in
  let start :=
    if Qltb start (currentTime (audioContext s))
    then currentTime (audioContext s) else start in
  let s := emit (SourceStart start buffer) s in
  let s := set_nextStartTime (start + duration buffer)%Q s in
  set_sources (S (sources s)) s.

(** processAudioContextQueue after its [await]: [result] is how the decode
    promise settled, [dataToDecode] the range that was submitted.  The
    function is async: what it throws rejects its own promise, which nobody
    awaits.  The result is the player after the continuation and, when that
    promise rejects, the reason.

    The array [dataToDecode] had its buffer handed to the decoder, so the
    catch block finds it detached. *)
Definition decode_settled (dataToDecode : Uint8Array)
  (result : completion AudioBuffer) (s : SpeechPlayer)
  : SpeechPlayer * option exception :=
  match result with
  | Normal audioBuffer =>
      let s := schedulePlayback audioBuffer s in
      (if Qeq_bool (nextStartTime s) 0 && onPlaying (options s)
       then emit CallOnPlaying s else s, None)
  | Throw e =>
      let s := emit ConsoleWarn s in
      let dataToDecode := after_transfer dataToDecode in
      let recovered :=
        new_Uint8Array
          (length_now dataToDecode + length_of (pendingBuffer s)) in
      match
        (recovered <- set_from_array recovered dataToDecode 0 ;;
         set_from recovered (pendingBuffer s) (length_now dataToDecode))
      with
      | Normal recovered => (set_pendingBuffer recovered s, None)
      | Throw thrown => (s, Some thrown)
      end
  end.

(** ** feed *)

Definition feed (chunk : Uint8Array) (s : SpeechPlayer)
  : completion SpeechPlayer :=
  if destroyed s then
    Throw (ReferenceError "SpeechPlayer has been destroyed.")
  else if useAudioContext s then
    let newBuffer :=
      new_Uint8Array (length_of (pendingBuffer s) + length_of chunk) in
    newBuffer <- set_from newBuffer (pendingBuffer s) 0 ;;
    newBuffer <- set_from newBuffer chunk (length_of (pendingBuffer s)) ;;
    let s := set_pendingBuffer newBuffer s in
    Normal (processAudioContextQueue s)
  else if negb (mediaSourceOpened s) then
    Throw (Error "MediaSource not opened, please do this update init resolved.")
  else
    let s := set_sourceBufferCache (sourceBufferCache s ++ [chunk]) s in
    if negb (updating (sourceBuffer s)) then
      match sourceBufferCache s with
      | first :: rest =>
          Normal (appendBuffer first (set_sourceBufferCache rest s))
      | [] => Throw TypeError
      end
    else Normal s.

(** ** StreamingBuffer pipeline: the listeners of sourceOpenHandle

    An exception thrown inside a listener ends that listener; what it changed
    before stays. *)

(** [cache.length === 0]. *)
Definition no_chunk (cache : list Uint8Array) : bool :=
  match cache with [] => true | _ :: _ => false end.

(** The audio element's "playing" and "pause" listeners. *)
Definition on_playing (s : SpeechPlayer) : SpeechPlayer :=
  call (onPlaying (options s)) CallOnPlaying s.

Definition on_pause (s : SpeechPlayer) : SpeechPlayer :=
  call (onPause (options s)) CallOnPause s.

(** The source buffer's "updateend" listener. *)
Definition on_updateend (s : SpeechPlayer) : SpeechPlayer :=
  let s := if timer s =? 0 then s else clearTimeout (timer s) s in
  match audio s with
  | None => s
  | Some a =>
      let s := if el_paused a then audio_play s else s in
      if negb (updating (sourceBuffer s))
         && negb (no_chunk (sourceBufferCache s))
      then
        match sourceBufferCache s with
        | first :: rest =>
            appendBuffer first (set_sourceBufferCache rest s)
        | [] => s
        end
      else s
  end.

(** The callback that the "waiting" listener hands to setTimeout. *)
Definition on_stall_timeout (s : SpeechPlayer) : SpeechPlayer :=
  if negb (updating (sourceBuffer s))
     && is_open (readyState (mediaSource s))
     && no_chunk (sourceBufferCache s)
  then call (onChunkEnd (options s)) CallOnChunkEnd (endOfStream s)
  else s.

(** The audio element's "waiting" listener. *)
Definition on_waiting (s : SpeechPlayer) : SpeechPlayer :=
  let (id, s) := setTimeout stall_task 500 s in
  set_timer id s.

Definition sourceOpenHandle (s : SpeechPlayer) : SpeechPlayer :=
  if initResolve s then
    let s := emit ResolveInit s in
    let s := set_initResolve false s in
    match audio s with
    | None => s
    | Some _ =>
        let s := set_sourceBuffer (mkSourceBuffer false) s in
        let s := set_timer 0 s in
        set_mediaSourceOpened true s
    end
  else s.

(** ** Construction and initialisation *)

Definition no_options : Options := mkOptions false false false None None.

(** [new Audio()]. *)
Definition new_Audio : HTMLAudioElement := mkAudio true.

Definition constructor (opts : option Options) : SpeechPlayer :=
  let audio :=
    match opts with
    | Some o =>
        Some (match opt_audio o with Some a => a | None => new_Audio end)
    | None => None
    end in
  let options := match opts with Some o => o | None => no_options end in
  mkSpeechPlayer audio (mkMediaSource rs_closed) (mkSourceBuffer false) false
    [] false false options (mkAudioContext suspended 0) 0 (new_Uint8Array 0)
    false 0 [] 1 [] O [].

(** What init asks of the host: whether MediaSource exists and supports the
    type, and the state in which a new AudioContext starts. *)
Record Host : Type := mkHost {
  supports : string -> bool;
  new_context_state : AudioContextState
}.

(** What a pending promise waits for. *)
Inductive wake : Type :=
| source_open | resume_done | suspend_done | playing_event | pause_event.

Inductive promise (A : Type) : Type :=
| Resolved (a : A)
| Rejected (e : exception)
| Pending (w : wake).

Arguments Resolved {A} a.
Arguments Rejected {A} e.
Arguments Pending {A} w.

Definition init (h : Host) (s : SpeechPlayer) : SpeechPlayer * promise unit :=
  let s := set_destroyed false s in
  let mime :=
    match mimeType (options s) with
    | Some m => m
    | None => "audio/mpeg"%string
    end in
  if supports h mime then
    let s := set_useAudioContext false s in
    let s := set_mediaSource (mkMediaSource rs_closed) s in
    match audio s with
    | None => (s, Rejected TypeError)
    | Some _ => (set_initResolve true s, Pending source_open)
    end
  else
    let s := set_useAudioContext true s in
    let s := set_audioContext (mkAudioContext (new_context_state h) 0) s in
    let s := set_nextStartTime 0 s in
    let s := set_pendingBuffer (new_Uint8Array 0) s in
    (s, Resolved tt).

(** ** Playback control *)

Definition paused (s : SpeechPlayer) : bool :=
  if useAudioContext s then
    is_suspended (ctx_state (audioContext s))
    || is_closed (ctx_state (audioContext s))
  else
    match audio s with
    | Some a => el_paused a
    | None => false
    end.

Definition playing (s : SpeechPlayer) : bool := negb (paused s).

Definition play (s : SpeechPlayer) : SpeechPlayer * promise bool :=
  if useAudioContext s then
    if is_suspended (ctx_state (audioContext s)) then
      (emit ContextResume s, Pending resume_done)
    else (s, Resolved true)
  else if paused s then
    match audio s with
    | Some _ => (audio_play s, Pending playing_event)
    | None => (s, Rejected TypeError)
    end
  else (s, Resolved false).

(** The callback play() chains on [audioContext.resume()]. *)
Definition play_resumed (s : SpeechPlayer) : SpeechPlayer * promise bool :=
  (call (onPlaying (options s)) CallOnPlaying s, Resolved true).

Definition pause (s : SpeechPlayer) : SpeechPlayer * promise bool :=
  if useAudioContext s then
    if is_running (ctx_state (audioContext s)) then
      (emit ContextSuspend s, Pending suspend_done)
    else (s, Resolved false)
  else if playing s then
    match audio s with
    | Some _ =>
        let s := audio_pause s in
        let (_, s) := setTimeout pause_task 0 s in
        (s, Pending pause_event)
    | None => (s, Rejected TypeError)
    end
  else (s, Resolved false).

(** The callback pause() chains on [audioContext.suspend()]. *)
Definition pause_suspended (s : SpeechPlayer) : SpeechPlayer * promise bool :=
  (call (onPause (options s)) CallOnPause s, Resolved true).

Definition destroy (s : SpeechPlayer) : SpeechPlayer :=
  if useAudioContext s then
    let s := emit ContextClose s in
    set_destroyed true s
  else
    let s :=
      match audio s with
      | Some a => if negb (el_paused a) then audio_pause s else s
      | None => s
      end in
    let s := set_destroyed true s in
    let s := set_mediaSourceOpened false s in
    let s := emit RemoveSourceBuffer s in
    let s := endOfStream s in
    let s := emit Abort s in
    set_sourceBufferCache [] s.

(** ** The event loop

    One event is one call of the caller or one notification of the platform;
    the platform updates its own attribute first and then runs the listener.
    A call that throws leaves the player as it was (both throws of feed come
    before its first assignment). *)

Inductive event : Type :=
| Init (h : Host)
| Feed (chunk : Uint8Array)
| Play
| Pause
| Destroy
| SourceOpen
| UpdateEnd
| Waiting
| Timeout (id : Z)
| PlayingEvent
| PauseEvent
| DecodeDone (i : nat) (result : completion AudioBuffer)
| Ended
| Clock (t : Q)
| Resumed
| Suspended.

Fixpoint remove_nth {A : Type} (i : nat) (l : list A) : list A :=
  match i, l with
  | _, [] => []
  | O, _ :: r => r
  | S i, x :: r => x :: remove_nth i r
  end.

Definition or_else {A : Type} (c : completion A) (d : A) : A :=
  match c with Normal a => a | Throw _ => d end.

Definition task_of (id : Z) (s : SpeechPlayer) : option task :=
  match find (fun p => fst p =? id) (timeouts s) with
  | Some p => Some (snd p)
  | None => None
  end.

Definition expire (id : Z) (s : SpeechPlayer) : SpeechPlayer :=
  set_timeouts (filter (other_than id) (timeouts s)) s.

Definition step (s : SpeechPlayer) (e : event) : SpeechPlayer :=
  match e with
  | Init h => fst (init h s)
  | Feed chunk => or_else (feed chunk s) s
  | Play => fst (play s)
  | Pause => fst (pause s)
  | Destroy => destroy s
  | SourceOpen =>
      sourceOpenHandle (set_mediaSource (mkMediaSource rs_open) s)
  | UpdateEnd => on_updateend (set_sourceBuffer (mkSourceBuffer false) s)
  | Waiting => on_waiting s
  | Timeout id =>
      match task_of id s with
      | Some stall_task => on_stall_timeout (expire id s)
      | Some pause_task => expire id s
      | None => s
      end
  | PlayingEvent => on_playing s
  | PauseEvent => on_pause s
  | DecodeDone i result =>
      match nth_error (decoding s) i with
      | Some dataToDecode =>
          let s := set_decoding (remove_nth i (decoding s)) s in
          fst (decode_settled dataToDecode result s)
      | None => s
      end
  | Ended =>
      match sources s with
      | S n => onended (set_sources n s)
      | O => s
      end
  | Clock t =>
      if Qle_bool (currentTime (audioContext s)) t
      then set_audioContext (mkAudioContext (ctx_state (audioContext s)) t) s
      else s
  | Resumed =>
      fst (play_resumed
             (set_audioContext
                (mkAudioContext running (currentTime (audioContext s))) s))
  | Suspended =>
      fst (pause_suspended
             (set_audioContext
                (mkAudioContext suspended (currentTime (audioContext s))) s))
  end.

Definition run (tr : list event) (s : SpeechPlayer) : SpeechPlayer :=
  fold_left step tr s.

(** ** feedWithResponse

    The loop of feedWithResponse over streamAsyncIterable awaits every read
    of the reader, so other calls and events take place between two chunks.
    A read is given with the events that precede it and is a chunk or a
    failed read; the end of the list is the read that reports [done].
    However the loop ends, the generator's [finally] releases the reader's
    lock.  The result is the player at that point and, when the promise of
    feedWithResponse rejects, the reason. *)
Fixpoint feedWithResponse
  (reads : list (list event * completion Uint8Array)) (s : SpeechPlayer)
  : SpeechPlayer * option exception :=
  match reads with
  | [] => (emit ReleaseLock s, None)
  | (between, read) :: rest =>
      let s := run between s in
      match read with
      | Throw e => (emit ReleaseLock s, Some e)
      | Normal chunk =>
          match feed chunk s with
          | Normal s => feedWithResponse rest s
          | Throw e => (emit ReleaseLock s, Some e)
          end
      end
  end.

(** The events of a response as the event loop sees them: what happens
    between the reads, and a feed for every chunk read. *)
Fixpoint fed_trace (reads : list (list event * completion Uint8Array))
  : list event :=
  match reads with
  | [] => []
  | (between, Normal chunk) :: rest => between ++ Feed chunk :: fed_trace rest
  | (between, Throw _) :: rest => between ++ fed_trace rest
  end.

(** The byte ranges handed to the decoder, in the order of the calls. *)
Fixpoint submitted (l : list effect) : list Uint8Array :=
  match l with
  | [] => []
  | DecodeAudioData data :: r => data :: submitted r
  | _ :: r => submitted r
  end.

(** The chunks fed in a trace, in order. *)
Fixpoint fed (tr : list event) : list Uint8Array :=
  match tr with
  | [] => []
  | Feed chunk :: r => chunk :: fed r
  | _ :: r => fed r
  end.

(** How often a callback was called. *)
Definition is_effect (e x : effect) : bool :=
  match e, x with
  | CallOnPlaying, CallOnPlaying => true
  | CallOnPause, CallOnPause => true
  | CallOnChunkEnd, CallOnChunkEnd => true
  | EndOfStream, EndOfStream => true
  | _, _ => false
  end.

Definition calls (e : effect) (s : SpeechPlayer) : nat :=
  List.length (filter (is_effect e) (log s)).

(** ** Views of a run *)

(** Everything handed to the decoder so far, followed by what is buffered. *)
Definition stream_of (s : SpeechPlayer) : Uint8Array :=
  concat (submitted (log s)) ++ pendingBuffer s.

(** Events that neither re-initialise, nor destroy, nor fail a decode. *)
Definition steady (e : event) : bool :=
  match e with
  | Init _ => false
  | Destroy => false
  | DecodeDone _ (Throw _) => false
  | _ => true
  end.

(** Events under which the play-head can only advance: no
    re-initialisation, and no decoded segment of negative duration. *)
Definition advancing (e : event) : bool :=
  match e with
  | Init _ => false
  | DecodeDone _ (Normal buffer) => Qle_bool 0 (duration buffer)
  | _ => true
  end.

(** Events other than a re-initialisation. *)
Definition same_init (e : event) : bool :=
  match e with
  | Init _ => false
  | _ => true
  end.

(** Nothing has been cut off the buffer yet, or at least two bytes are
    buffered. *)
Definition uncut_or_buffered (s : SpeechPlayer) : Prop :=
  (sources s = O /\ decoding s = []) \/ 2 <= length_of (pendingBuffer s).

(** ** Sample instances *)

Definition all_callbacks : Options := mkOptions true true true None None.

(** A host without MediaSource support: init picks ManualDecode. *)
Definition fallback_host : Host := mkHost (fun _ => false) running.

(** A host with MediaSource support: init picks StreamingBuffer. *)
Definition mse_host : Host := mkHost (fun _ => true) running.

(** A ManualDecode player right after init. *)
Definition manual_player : SpeechPlayer :=
  run [Init fallback_host] (constructor (Some all_callbacks)).

(** A StreamingBuffer player after init and "sourceopen". *)
Definition streaming_player : SpeechPlayer :=
  run [Init mse_host; SourceOpen] (constructor (Some all_callbacks)).

(** Chunks whose borders fall inside frames and inside a sync word, with a
    decode that succeeds in between. *)
Definition sample_feeds : list event :=
  [Feed [x41; xff]; Feed [xfb; x00; xff];
   DecodeDone 0 (Normal (mkAudioBuffer 1)); Feed [xe3; x07]].

(** Two segments: the second is decoded after the first has run out. *)
Definition sample_schedules : list event :=
  [Feed [x41; xff; xfb; x00; xff; xe3; x07];
   DecodeDone 0 (Normal (mkAudioBuffer (1 # 2)));
   Clock 2;
   Feed [x08; xff; xfb];
   DecodeDone 0 (Normal (mkAudioBuffer (3 # 4)));
   Ended; Ended].

(** A ManualDecode player whose first byte range is at the decoder. *)
Definition first_decode_pending : SpeechPlayer :=
  run [Feed [x41; xff; xfb]] manual_player.

(** A StreamingBuffer player that has written one chunk and is playing. *)
Definition streaming_playing : SpeechPlayer :=
  run [Feed [x40]; UpdateEnd] streaming_player.

(** A ManualDecode player whose context is suspended. *)
Definition manual_suspended : SpeechPlayer :=
  run [Pause; Suspended] manual_player.

(** The stream stalls, the caller pauses and resumes (the element reports
    "waiting" again), a chunk arrives and is written, and then the timeout of
    the first stall fires. *)
Definition stall_race : list event :=
  [Waiting; Pause; Play; Waiting; Feed [x41]; UpdateEnd; Timeout 1].


(** ** Views for the further properties *)

(** The chunks handed to appendBuffer, in the order of the calls. *)
Fixpoint appended (l : list effect) : list Uint8Array :=
  match l with
  | [] => []
  | AppendBuffer chunk :: r => chunk :: appended r
  | _ :: r => appended r
  end.

(** Events other than init and destroy. *)
Definition alive (e : event) : bool :=
  match e with
  | Init _ => false
  | Destroy => false
  | _ => true
  end.

(** A read that succeeds, with neither init nor destroy before it. *)
Definition calm (read : list event * completion Uint8Array) : bool :=
  forallb alive (fst read)
  && match snd read with Normal _ => true | Throw _ => false end.

(** The write completions and source opens of a trace. *)
Fixpoint completions (tr : list event) : nat :=
  match tr with
  | [] => O
  | UpdateEnd :: r => S (completions r)
  | SourceOpen :: r => S (completions r)
  | _ :: r => completions r
  end.

(** One write may be started when the source buffer is idle. *)
Definition idle_credit (s : SpeechPlayer) : nat :=
  if updating (sourceBuffer s) then O else 1%nat.

(** [this.options?.mimeType ?? 'audio/mpeg'], the type init asks the host
    about. *)
Definition mime_of (s : SpeechPlayer) : string :=
  match mimeType (options s) with
  | Some m => m
  | None => "audio/mpeg"%string
  end.

(** The two conditions under which feed throws. *)
Definition rejects (s : SpeechPlayer) : bool :=
  destroyed s || (negb (useAudioContext s) && negb (mediaSourceOpened s)).

(** ** Sample runs for the further properties *)

(** Four chunks of which two are fed while a write is in progress. *)
Definition sample_writes : list event :=
  [Feed [x01]; Feed [x02]; Feed [x03]; UpdateEnd; PlayingEvent; Feed [x04];
   UpdateEnd].

(** A second range is cut while the first is at the decoder; the first
    decode fails, the second succeeds. *)
Definition sample_failures : list event :=
  [Feed [x41; xff; xfb; x00]; Feed [xff; xe3; x07];
   DecodeDone 0 (Throw EncodingError); Feed [x08; xff; xfb];
   DecodeDone 0 (Normal (mkAudioBuffer (1 # 2)))].

(** One segment is playing and the clock has reached its end. *)
Definition sample_one_segment : list event :=
  [Feed [x41; xff; xfb]; DecodeDone 0 (Normal (mkAudioBuffer 1)); Clock 1].

(** Calls and events of both pipelines, mixed. *)
Definition sample_mixed : list event :=
  [Feed [x41; xff; xfb; x00]; UpdateEnd; Waiting; Timeout 1; Play; Pause;
   DecodeDone 0 (Normal (mkAudioBuffer 1)); Feed [xff; xe3; x07]; Ended;
   Destroy; Feed [x08]].

(** * Properties *)

(** ** Typed arrays *)

Lemma length_of_nonneg (a : Uint8Array) : 0 <= length_of a.
Proof. unfold length_of. lia. Qed.

Lemma length_of_app (a b : Uint8Array) :
  length_of (a ++ b) = length_of a + length_of b.
Proof. unfold length_of. rewrite length_app. lia. Qed.

Lemma length_of_new (n : Z) : 0 <= n -> length_of (new_Uint8Array n) = n.
Proof.
  intros Hn. unfold length_of, new_Uint8Array. rewrite repeat_length. lia.
Qed.

Lemma length_of_zero (a : Uint8Array) : length_of a = 0 -> a = [].
Proof. destruct a; [reflexivity | unfold length_of; simpl; lia]. Qed.

Lemma new_split (n m : Z) :
  0 <= n -> 0 <= m ->
  new_Uint8Array (n + m) = new_Uint8Array n ++ new_Uint8Array m.
Proof.
  intros Hn Hm. unfold new_Uint8Array.
  rewrite Z2Nat.inj_add by assumption. apply repeat_app.
Qed.

(** Writing [a] at the start of a fresh array of [|a| + n] bytes. *)
Lemma set_from_front (a : Uint8Array) (n : Z) :
  0 <= n ->
  set_from (new_Uint8Array (length_of a + n)) a 0
  = Normal (a ++ new_Uint8Array n).
Proof.
  intros Hn. pose proof (length_of_nonneg a) as Ha. unfold set_from.
  rewrite length_of_new by lia.
  replace (0 <=? 0) with true by reflexivity.
  replace (0 + length_of a <=? length_of a + n) with true
    by (symmetry; apply Z.leb_le; lia).
  simpl. f_equal. f_equal.
  rewrite new_split by lia. rewrite skipn_app.
  replace (Z.to_nat (length_of a)) with (List.length a)
    by (unfold length_of; lia).
  assert (Hl : List.length (new_Uint8Array (length_of a)) = List.length a).
  { unfold new_Uint8Array, length_of. rewrite repeat_length. lia. }
  rewrite Hl, Nat.sub_diag. simpl.
  rewrite skipn_all2 by lia. reflexivity.
Qed.

(** Writing [b] right behind [a]. *)
Lemma set_from_back (a b : Uint8Array) :
  set_from (a ++ new_Uint8Array (length_of b)) b (length_of a)
  = Normal (a ++ b).
Proof.
  pose proof (length_of_nonneg a) as Ha.
  pose proof (length_of_nonneg b) as Hb.
  unfold set_from. rewrite length_of_app, length_of_new by lia.
  replace (0 <=? length_of a) with true by (symmetry; apply Z.leb_le; lia).
  replace (length_of a + length_of b <=? length_of a + length_of b) with true
    by (symmetry; apply Z.leb_le; lia).
  simpl. f_equal.
  replace (Z.to_nat (length_of a)) with (List.length a)
    by (unfold length_of; lia).
  rewrite firstn_app, Nat.sub_diag, firstn_all. simpl. rewrite app_nil_r.
  f_equal. rewrite skipn_all2; [apply app_nil_r |].
  rewrite length_app. unfold new_Uint8Array, length_of.
  rewrite repeat_length. lia.
Qed.

(** The idiom of feed and of the recovery path: allocate, copy [a], copy [b]
    behind it. *)
Lemma set_twice (a b : Uint8Array) :
  (t <- set_from (new_Uint8Array (length_of a + length_of b)) a 0 ;;
   set_from t b (length_of a)) = Normal (a ++ b).
Proof.
  rewrite set_from_front by apply length_of_nonneg. simpl.
  apply set_from_back.
Qed.

(** Cutting at [c] and gluing the two slices gives the array back. *)
Lemma slice_split (a : Uint8Array) (c : Z) :
  0 <= c <= length_of a ->
  slice a 0 c = firstn (Z.to_nat c) a /\
  slice_from a c = skipn (Z.to_nat c) a /\
  slice a 0 c ++ slice_from a c = a.
Proof.
  intros Hc.
  assert (H1 : slice a 0 c = firstn (Z.to_nat c) a).
  { unfold slice, rel_index.
    replace (0 <? 0) with false by reflexivity.
    replace (c <? 0) with false by (symmetry; apply Z.ltb_ge; lia).
    rewrite (Z.min_l 0) by apply length_of_nonneg.
    rewrite Z.min_l by lia. rewrite Z.sub_0_r, Z.max_l by lia.
    reflexivity. }
  assert (H2 : slice_from a c = skipn (Z.to_nat c) a).
  { unfold slice_from, slice, rel_index.
    replace (c <? 0) with false by (symmetry; apply Z.ltb_ge; lia).
    replace (length_of a <? 0) with false
      by (symmetry; apply Z.ltb_ge; apply length_of_nonneg).
    rewrite !Z.min_l by lia. rewrite Z.max_l by lia.
    apply firstn_all2. rewrite length_skipn. unfold length_of. lia. }
  rewrite H1, H2. repeat split. apply firstn_skipn.
Qed.

(** ** The scan *)

Lemma get_some_range (a : Uint8Array) (i : Z) (x : byte) :
  get a i = Some x -> 0 <= i < length_of a.
Proof.
  unfold get. destruct (i <? 0) eqn:Hi; [discriminate |].
  intros H. apply Z.ltb_ge in Hi.
  assert (Hn : (Z.to_nat i < List.length a)%nat).
  { apply nth_error_Some. congruence. }
  unfold length_of. lia.
Qed.

(** The test of the loop is the claim's frame boundary. *)
Lemma sync_at_boundary (a : Uint8Array) (i : Z) :
  sync_at a i = true <-> boundary a i.
Proof.
  unfold sync_at, boundary. split.
  - destruct (get a i) as [x |] eqn:Hx; [| discriminate].
    destruct (get a (i + 1)) as [y |] eqn:Hy;
      [| rewrite andb_false_r; discriminate].
    intros H. apply andb_true_iff in H. destruct H as [H1 H2].
    apply Z.eqb_eq in H1. apply Z.eqb_eq in H2.
    apply get_some_range in Hx as Rx. apply get_some_range in Hy as Ry.
    split; [lia |]. exists x, y. auto.
  - intros [_ (x & y & Hx & Hy & H1 & H2)].
    rewrite Hx, Hy. apply andb_true_iff. split; apply Z.eqb_eq; assumption.
Qed.

(** The loop stops at the first hit from above, or ends with -1. *)
Lemma scan_down_spec (a : Uint8Array) (k : nat) :
  (scan_down a k = -1 /\
   forall i, 0 <= i < Z.of_nat k -> sync_at a i = false)
  \/
  (0 <= scan_down a k < Z.of_nat k /\
   sync_at a (scan_down a k) = true /\
   forall i, scan_down a k < i < Z.of_nat k -> sync_at a i = false).
Proof.
  induction k as [| k IH].
  - left. split; [reflexivity |]. intros i Hi. simpl in Hi. lia.
  - cbn [scan_down]. destruct (sync_at a (Z.of_nat k)) eqn:Hk.
    + right. split; [lia |]. split; [assumption |]. intros i Hi. lia.
    + destruct IH as [[H1 H2] | (H1 & H2 & H3)].
      * left. split; [assumption |]. intros i Hi.
        destruct (Z.eq_dec i (Z.of_nat k)) as [-> | Hne];
          [assumption | apply H2; lia].
      * right. split; [lia |]. split; [assumption |]. intros i Hi.
        destruct (Z.eq_dec i (Z.of_nat k)) as [-> | Hne];
          [assumption | apply H3; lia].
Qed.

Lemma cutIndex_spec (a : Uint8Array) :
  (cutIndex a = -1 /\ forall i, ~ boundary a i)
  \/
  (boundary a (cutIndex a) /\ forall j, boundary a j -> j <= cutIndex a).
Proof.
  unfold cutIndex.
  set (k := Z.to_nat (length_of a - 2 + 1)).
  assert (Hk : forall i, boundary a i -> 0 <= i < Z.of_nat k).
  { intros i [Hi _]. subst k. lia. }
  destruct (scan_down_spec a k) as [[H1 H2] | (H1 & H2 & H3)].
  - left. split; [assumption |]. intros i Hb.
    specialize (H2 i (Hk i Hb)). apply sync_at_boundary in Hb. congruence.
  - right. split; [apply sync_at_boundary; assumption |].
    intros j Hb. destruct (Z_le_gt_dec j (scan_down a k)) as [| Hgt];
      [assumption |].
    assert (Hj := Hk j Hb). specialize (H3 j ltac:(lia)).
    apply sync_at_boundary in Hb. congruence.
Qed.

(** The largest boundary is the cut index. *)
Lemma cutIndex_largest (a : Uint8Array) (i : Z) :
  boundary a i -> (forall j, boundary a j -> j <= i) -> cutIndex a = i.
Proof.
  intros Hi Hmax. destruct (cutIndex_spec a) as [[_ Hno] | [Hc Hle]].
  - exfalso. exact (Hno i Hi).
  - specialize (Hle i Hi). specialize (Hmax _ Hc). lia.
Qed.

Lemma cutIndex_range (a : Uint8Array) :
  cutIndex a = -1 \/ 0 <= cutIndex a <= length_of a - 2.
Proof.
  destruct (cutIndex_spec a) as [[H _] | [[H _] _]]; [left | right];
    assumption.
Qed.

(** ** processAudioContextQueue *)

(** Either nothing happens, or the buffer is cut at a positive index that
    leaves at least two bytes behind. *)
Lemma processAudioContextQueue_cases (s : SpeechPlayer) :
  processAudioContextQueue s = s
  \/
  exists c,
    c = cutIndex (pendingBuffer s) /\
    0 < c <= length_of (pendingBuffer s) - 2 /\
    processAudioContextQueue s
    = decodeAudioData (firstn (Z.to_nat c) (pendingBuffer s))
        (set_pendingBuffer (skipn (Z.to_nat c) (pendingBuffer s)) s).
Proof.
  unfold processAudioContextQueue.
  destruct (length_of (pendingBuffer s) =? 0); [left; reflexivity |].
  destruct (cutIndex (pendingBuffer s) >? 0) eqn:Hc; [| left; reflexivity].
  right. exists (cutIndex (pendingBuffer s)).
  apply Z.gtb_lt in Hc.
  destruct (cutIndex_range (pendingBuffer s)) as [H | H]; [lia |].
  split; [reflexivity |]. split; [lia |].
  destruct (slice_split (pendingBuffer s) (cutIndex (pendingBuffer s)))
    as (H1 & H2 & _); [lia |].
  rewrite H1, H2. reflexivity.
Qed.

(** C2.  The scan picks the largest index [i <= length - 2] at which the
    buffer holds 0xFF followed by a byte whose three top bits are set, and a
    positive such index is where the buffer is cut.  When there is no such
    index, or index 0 is the only one, processAudioContextQueue changes
    nothing: pendingBuffer stays and nothing is handed to the decoder. *)
Theorem scan_selects_last_boundary (s : SpeechPlayer) :
  (forall i,
     boundary (pendingBuffer s) i ->
     (forall j, boundary (pendingBuffer s) j -> j <= i) ->
     cutIndex (pendingBuffer s) = i /\
     (0 < i ->
      processAudioContextQueue s
      = decodeAudioData (firstn (Z.to_nat i) (pendingBuffer s))
          (set_pendingBuffer (skipn (Z.to_nat i) (pendingBuffer s)) s)))
  /\
  ((forall i, boundary (pendingBuffer s) i -> i = 0) ->
   processAudioContextQueue s = s).
Proof.
  split.
  - intros i Hi Hmax. pose proof (cutIndex_largest _ _ Hi Hmax) as Hc.
    split; [assumption |]. intros Hpos.
    destruct (processAudioContextQueue_cases s) as [Hs | (c & -> & _ & ->)].
    + exfalso. unfold processAudioContextQueue in Hs.
      destruct Hi as [Hr _].
      destruct (length_of (pendingBuffer s) =? 0) eqn:Hl;
        [apply Z.eqb_eq in Hl; lia |].
      rewrite Hc in Hs.
      replace (i >? 0) with true in Hs by (symmetry; apply Z.gtb_lt; lia).
      apply (f_equal (fun x => List.length (decoding x))) in Hs.
      unfold decodeAudioData, emit in Hs. simpl in Hs.
      rewrite length_app in Hs. simpl in Hs. lia.
    + rewrite Hc. reflexivity.
  - intros Hzero. unfold processAudioContextQueue.
    destruct (length_of (pendingBuffer s) =? 0); [reflexivity |].
    destruct (cutIndex_spec (pendingBuffer s)) as [[Hc _] | [Hb _]].
    + rewrite Hc. reflexivity.
    + rewrite (Hzero _ Hb). reflexivity.
Qed.

Lemma scan_selects_last_boundary_witness :
  cutIndex [x41; xff; xfb; x00; xff; xe3; x07] = 4 /\
  processAudioContextQueue
    (set_pendingBuffer [x41; xff; xfb; x00; xff; xe3; x07] manual_player)
  = decodeAudioData [x41; xff; xfb; x00]
      (set_pendingBuffer [xff; xe3; x07] manual_player) /\
  processAudioContextQueue
    (set_pendingBuffer [xff; xe3; x07] manual_player)
  = set_pendingBuffer [xff; xe3; x07] manual_player.
Proof.
  assert (H4 : boundary [x41; xff; xfb; x00; xff; xe3; x07] 4).
  { apply sync_at_boundary. reflexivity. }
  assert (Hmax : forall j,
             boundary [x41; xff; xfb; x00; xff; xe3; x07] j -> j <= 4).
  { intros j Hj. apply sync_at_boundary in Hj.
    destruct (Z_le_gt_dec j 4) as [| Hgt]; [assumption |].
    destruct (Z.eq_dec j 5) as [-> | H5]; [discriminate Hj |].
    exfalso. apply sync_at_boundary in Hj. destruct Hj as [Hr _].
    unfold length_of in Hr. simpl in Hr. lia. }
  destruct (scan_selects_last_boundary
              (set_pendingBuffer [x41; xff; xfb; x00; xff; xe3; x07]
                 manual_player)) as [Hsel _].
  destruct (Hsel 4 H4 Hmax) as [Hc Hcut].
  destruct (scan_selects_last_boundary
              (set_pendingBuffer [xff; xe3; x07] manual_player))
    as [_ Hkeep].
  split; [exact Hc |]. split; [exact (Hcut ltac:(lia)) |].
  apply Hkeep. intros i Hi. apply sync_at_boundary in Hi as Hs.
  destruct Hi as [Hr _]. unfold length_of in Hr. simpl in Hr.
  destruct (Z.eq_dec i 0) as [| Hne]; [assumption |].
  assert (i = 1) by lia. subst i. discriminate Hs.
Defined.

(** ** feed in ManualDecode mode *)

(** The two [set] calls of feed build [pendingBuffer ++ chunk]. *)
Lemma feed_manual (chunk : Uint8Array) (s : SpeechPlayer) :
  destroyed s = false -> useAudioContext s = true ->
  feed chunk s
  = Normal (processAudioContextQueue
              (set_pendingBuffer (pendingBuffer s ++ chunk) s)).
Proof.
  intros Hd Hu. unfold feed. rewrite Hd, Hu.
  rewrite set_from_front by apply length_of_nonneg. cbn [bind].
  rewrite set_from_back. reflexivity.
Qed.

Lemma submitted_app (l r : list effect) :
  submitted (l ++ r) = submitted l ++ submitted r.
Proof.
  induction l as [| e l IH]; [reflexivity |].
  destruct e; simpl; rewrite IH; reflexivity.
Qed.

(** The synchronous part of processAudioContextQueue moves bytes from the
    buffer to the decoder and keeps their order. *)
Lemma processAudioContextQueue_stream (s : SpeechPlayer) :
  stream_of (processAudioContextQueue s) = stream_of s /\
  useAudioContext (processAudioContextQueue s) = useAudioContext s /\
  destroyed (processAudioContextQueue s) = destroyed s.
Proof.
  destruct (processAudioContextQueue_cases s) as [-> | (c & _ & _ & ->)];
    [auto |].
  unfold stream_of, decodeAudioData, emit. simpl.
  rewrite submitted_app, concat_app. simpl.
  rewrite app_nil_r, <- app_assoc, firstn_skipn. auto.
Qed.

Ltac split_ifs :=
  repeat match goal with
    | |- context [if ?b then _ else _] => destruct b
    | |- context [match ?x with _ => _ end] => destruct x
    end.

Ltac same_stream :=
  unfold stream_of, on_waiting, on_updateend, on_stall_timeout, on_playing,
    on_pause, sourceOpenHandle, play, pause, play_resumed, pause_suspended,
    onended, schedulePlayback, paused, playing, setTimeout, clearTimeout,
    expire, appendBuffer, endOfStream, audio_play, audio_pause, call, emit;
  cbn; split_ifs; cbn;
  rewrite ?submitted_app; cbn; rewrite ?app_nil_r; auto.

Lemma step_steady (s : SpeechPlayer) (e : event) :
  steady e = true ->
  destroyed s = false -> useAudioContext s = true ->
  destroyed (step s e) = false /\
  useAudioContext (step s e) = true /\
  stream_of (step s e) = stream_of s ++ concat (fed [e]).
Proof.
  intros He Hd Hu. destruct e; try discriminate He; cbn [step fed concat];
    rewrite ?app_nil_r.
  - (* Feed *)
    rewrite feed_manual by assumption. cbn [or_else].
    destruct (processAudioContextQueue_stream
                (set_pendingBuffer (pendingBuffer s ++ chunk) s))
      as (H1 & H2 & H3).
    rewrite H1, H2, H3. unfold stream_of. cbn.
    rewrite app_assoc. auto.
  - unfold play. rewrite Hu. same_stream.
  - unfold pause. rewrite Hu. same_stream.
  - same_stream.
  - same_stream.
  - same_stream.
  - destruct (task_of id s) as [[|] |]; same_stream.
  - same_stream.
  - same_stream.
  - (* DecodeDone *)
    destruct result as [buffer | ?]; [| discriminate He].
    destruct (nth_error (decoding s) i); [| auto].
    unfold decode_settled. cbn [fst]. same_stream.
  - destruct (sources s); same_stream.
  - same_stream.
  - same_stream.
  - same_stream.
Qed.

Lemma run_steady (tr : list event) (s : SpeechPlayer) :
  forallb steady tr = true ->
  destroyed s = false -> useAudioContext s = true ->
  destroyed (run tr s) = false /\
  useAudioContext (run tr s) = true /\
  stream_of (run tr s) = stream_of s ++ concat (fed tr).
Proof.
  revert s. induction tr as [| e tr IH]; intros s Htr Hd Hu.
  - cbn. rewrite app_nil_r. auto.
  - cbn [forallb] in Htr. apply andb_true_iff in Htr. destruct Htr as [He Htr].
    destruct (step_steady s e He Hd Hu) as (Hd1 & Hu1 & Hs1).
    destruct (IH (step s e) Htr Hd1 Hu1) as (Hd2 & Hu2 & Hs2).
    change (run (e :: tr) s) with (run tr (step s e)).
    rewrite Hs2, Hs1, <- app_assoc. repeat split; try assumption.
    f_equal. destruct e; cbn [fed concat app]; rewrite ?app_nil_r;
      reflexivity.
Qed.

(** C1.  ManualDecode mode, any sequence of feeds, with any other events in
    between except a re-initialisation, a destroy or a failed decode: the
    byte ranges handed to the decoder, concatenated in the order of the
    calls, followed by pendingBuffer, are the bytes there before followed by
    all chunks fed, in order.  And a split stores the remainder in
    pendingBuffer first and calls the decoder on the front part after. *)
Theorem feed_split_round_trip (s : SpeechPlayer) (tr : list event) :
  destroyed s = false -> useAudioContext s = true ->
  forallb steady tr = true ->
  concat (submitted (log (run tr s))) ++ pendingBuffer (run tr s)
  = (concat (submitted (log s)) ++ pendingBuffer s) ++ concat (fed tr)
  /\
  (processAudioContextQueue (run tr s) = run tr s
   \/
   exists dataToDecode remaining,
     dataToDecode ++ remaining = pendingBuffer (run tr s) /\
     processAudioContextQueue (run tr s)
     = decodeAudioData dataToDecode
         (set_pendingBuffer remaining (run tr s))).
Proof.
  intros Hd Hu Htr. split.
  - apply (run_steady tr s Htr Hd Hu).
  - destruct (processAudioContextQueue_cases (run tr s))
      as [H | (c & _ & _ & H)]; [left; assumption | right].
    exists (firstn (Z.to_nat c) (pendingBuffer (run tr s))),
      (skipn (Z.to_nat c) (pendingBuffer (run tr s))).
    split; [apply firstn_skipn | assumption].
Qed.

Lemma feed_split_round_trip_witness :
  concat (submitted (log (run sample_feeds manual_player)))
  ++ pendingBuffer (run sample_feeds manual_player)
  = [x41; xff; xfb; x00; xff; xe3; x07].
Proof.
  exact (proj1 (feed_split_round_trip manual_player sample_feeds
                  eq_refl eq_refl eq_refl)).
Defined.

(** ** A failed decode *)

Lemma decode_failure (dataToDecode : Uint8Array) (e : exception)
  (s : SpeechPlayer) :
  decode_settled dataToDecode (Throw e) s
  = (emit ConsoleWarn s, Some TypeError).
Proof. reflexivity. Qed.

Lemma nth_error_last {A : Type} (l : list A) (x : A) :
  nth_error (l ++ [x]) (List.length l) = Some x.
Proof.
  rewrite nth_error_app2 by lia. rewrite Nat.sub_diag. reflexivity.
Qed.

(** What processAudioContextQueue does, by the sign of the cut index. *)
Lemma processAudioContextQueue_cut (s : SpeechPlayer) :
  (cutIndex (pendingBuffer s) <= 0 -> processAudioContextQueue s = s) /\
  (0 < cutIndex (pendingBuffer s) ->
   processAudioContextQueue s
   = decodeAudioData
       (firstn (Z.to_nat (cutIndex (pendingBuffer s))) (pendingBuffer s))
       (set_pendingBuffer
          (skipn (Z.to_nat (cutIndex (pendingBuffer s))) (pendingBuffer s))
          s)).
Proof.
  unfold processAudioContextQueue. split; intros Hc.
  - destruct (length_of (pendingBuffer s) =? 0); [reflexivity |].
    replace (cutIndex (pendingBuffer s) >? 0) with false; [reflexivity |].
    symmetry. rewrite Z.gtb_ltb. apply Z.ltb_ge. exact Hc.
  - destruct (cutIndex_range (pendingBuffer s)) as [H | H]; [lia |].
    destruct (length_of (pendingBuffer s) =? 0) eqn:Hl;
      [apply Z.eqb_eq in Hl; lia |].
    replace (cutIndex (pendingBuffer s) >? 0) with true
      by (symmetry; apply Z.gtb_lt; exact Hc).
    destruct (slice_split (pendingBuffer s) (cutIndex (pendingBuffer s)))
      as (H1 & H2 & _); [lia |].
    rewrite H1, H2. reflexivity.
Qed.

(** C6.  The catch block does not put the range back.  Line 177 hands the
    buffer of [dataToDecode] to the decoder, so when the decode fails the
    array is detached: its length is 0 and [recovered.set(dataToDecode)]
    throws a TypeError.  pendingBuffer keeps the remainder only, the bytes
    of the failed range are gone, the promise of processAudioContextQueue
    rejects, and onPlaying is not called. *)
Theorem failed_decode_drops_range (s : SpeechPlayer) (e : exception) :
  0 < cutIndex (pendingBuffer s) ->
  let cut := Z.to_nat (cutIndex (pendingBuffer s)) in
  let dataToDecode := firstn cut (pendingBuffer s) in
  let failed :=
    step (processAudioContextQueue s)
      (DecodeDone (List.length (decoding s)) (Throw e)) in
  pendingBuffer failed = skipn cut (pendingBuffer s) /\
  pendingBuffer failed <> pendingBuffer s /\
  log failed = log s ++ [DecodeAudioData dataToDecode; ConsoleWarn] /\
  decoding failed = decoding s /\
  forall t, snd (decode_settled dataToDecode (Throw e) t) = Some TypeError.
Proof.
  intros Hc cut dataToDecode failed.
  destruct (processAudioContextQueue_cut s) as [_ Hq]. specialize (Hq Hc).
  destruct (cutIndex_range (pendingBuffer s)) as [H | Hr]; [lia |].
  assert (Hf : failed
               = emit ConsoleWarn
                   (set_decoding
                      (remove_nth (List.length (decoding s))
                         (decoding s ++ [dataToDecode]))
                      (processAudioContextQueue s))).
  { subst failed. cbn [step]. rewrite Hq.
    assert (Hdec : forall d r,
               decoding (decodeAudioData d (set_pendingBuffer r s))
               = decoding s ++ [d]) by reflexivity.
    rewrite Hdec, nth_error_last, decode_failure. reflexivity. }
  assert (Hrm : forall (l : list Uint8Array) x,
             remove_nth (List.length l) (l ++ [x]) = l).
  { induction l as [| y l IH]; intros x; [reflexivity |].
    cbn. rewrite IH. reflexivity. }
  rewrite Hf, Hq. clear Hf. split; [reflexivity |]. split; [| split; [| split]].
  - cbn. intros Heq. apply (f_equal (@List.length byte)) in Heq.
    rewrite length_skipn in Heq. unfold length_of in Hr. lia.
  - unfold decodeAudioData, emit. cbn. rewrite <- app_assoc. reflexivity.
  - cbn. apply Hrm.
  - intros t. reflexivity.
Qed.

Lemma failed_decode_drops_range_witness :
  pendingBuffer
    (run [Feed [x41; xff; xfb]; DecodeDone 0 (Throw EncodingError)]
       manual_player)
  = [xff; xfb].
Proof.
  apply (failed_decode_drops_range
           (set_pendingBuffer [x41; xff; xfb] manual_player) EncodingError).
  reflexivity.
Defined.

(** ** When feed throws *)

(** A player that is not destroyed never gets the ReferenceError. *)
Lemma feed_alive (chunk : Uint8Array) (s : SpeechPlayer) :
  destroyed s = false ->
  forall msg, feed chunk s <> Throw (ReferenceError msg).
Proof.
  intros Hd msg. destruct (useAudioContext s) eqn:Hu.
  - rewrite feed_manual by assumption. discriminate.
  - unfold feed. rewrite Hd, Hu.
    destruct (mediaSourceOpened s); cbn; [| discriminate].
    destruct (updating (sourceBuffer s)); cbn; [discriminate |].
    destruct (sourceBufferCache s); discriminate.
Qed.

(** C7.  feed throws exactly when the player is destroyed, or it is in
    StreamingBuffer mode and the media source has not opened.  The destroyed
    test comes first: a destroyed player gets the ReferenceError in either
    mode.  A ManualDecode player that is not destroyed never throws. *)
Theorem feed_throws_iff (chunk : Uint8Array) (s : SpeechPlayer) :
  (throws (feed chunk s) <->
   destroyed s = true \/
   (useAudioContext s = false /\ mediaSourceOpened s = false))
  /\
  (destroyed s = true ->
   feed chunk s = Throw (ReferenceError "SpeechPlayer has been destroyed."))
  /\
  (destroyed s = false /\ useAudioContext s = true ->
   exists s', feed chunk s = Normal s').
Proof.
  assert (Hd : destroyed s = true ->
               feed chunk s
               = Throw (ReferenceError "SpeechPlayer has been destroyed.")).
  { intros H. unfold feed. rewrite H. reflexivity. }
  assert (Hm : destroyed s = false /\ useAudioContext s = true ->
               exists s', feed chunk s = Normal s').
  { intros [H1 H2]. rewrite feed_manual by assumption. eexists. reflexivity. }
  split; [| split; assumption].
  destruct (destroyed s) eqn:Ed.
  - split; [auto |]. intros _. eexists. apply Hd. reflexivity.
  - destruct (useAudioContext s) eqn:Eu.
    + split.
      * intros [e He]. destruct Hm as [s' Hs']; [auto | congruence].
      * intros [H | [H _]]; discriminate H.
    + unfold feed, throws. rewrite Ed, Eu.
      destruct (mediaSourceOpened s) eqn:Eo; cbn.
      * split; [| intros [H | [_ H]]; discriminate H].
        intros [e He]. exfalso.
        destruct (updating (sourceBuffer s)); cbn in He; [discriminate He |].
        destruct (sourceBufferCache s); discriminate He.
      * split; [auto |]. intros _. eexists. reflexivity.
Qed.

Lemma feed_throws_iff_witness :
  feed [x41] (destroy manual_player)
  = Throw (ReferenceError "SpeechPlayer has been destroyed.")
  /\ exists s', feed [x41] manual_player = Normal s'.
Proof.
  split.
  - apply (feed_throws_iff [x41] (destroy manual_player)). reflexivity.
  - apply (feed_throws_iff [x41] manual_player). split; reflexivity.
Defined.

(** ** The play-head *)

Lemma Qltb_lt (x y : Q) : Qltb x y = true <-> (x < y)%Q.
Proof.
  unfold Qltb. rewrite Qlt_alt.
  destruct (x ?= y)%Q; split; intros H; try reflexivity; discriminate H.
Qed.

(** The start time computed by schedulePlayback is the larger of the
    play-head and the clock. *)
Lemma schedulePlayback_spec (buffer : AudioBuffer) (s : SpeechPlayer) :
  schedulePlayback buffer s
  = set_sources (S (sources s))
      (set_nextStartTime
         (Qmax (nextStartTime s) (currentTime (audioContext s))
          + duration buffer)%Q
         (emit (SourceStart
                  (Qmax (nextStartTime s) (currentTime (audioContext s)))
                  buffer) s)).
Proof.
  unfold schedulePlayback, Qltb, Qmax, GenericMinMax.gmax.
  destruct (nextStartTime s ?= currentTime (audioContext s))%Q; reflexivity.
Qed.

Lemma schedulePlayback_le (buffer : AudioBuffer) (s : SpeechPlayer) :
  (0 <= duration buffer)%Q ->
  (nextStartTime s <= nextStartTime (schedulePlayback buffer s))%Q.
Proof.
  intros Hd. rewrite schedulePlayback_spec. cbn.
  pose proof (Q.le_max_l (nextStartTime s) (currentTime (audioContext s))).
  lra.
Qed.

Ltac same_field :=
  unfold on_waiting, on_updateend, on_stall_timeout, on_playing,
    on_pause, sourceOpenHandle, play, pause, play_resumed, pause_suspended,
    destroy, onended, paused, playing, setTimeout, clearTimeout,
    expire, appendBuffer, endOfStream, audio_play, audio_pause, call, emit;
  cbn; split_ifs; cbn; auto.

Lemma feed_nextStartTime (chunk : Uint8Array) (s : SpeechPlayer) :
  nextStartTime (or_else (feed chunk s) s) = nextStartTime s.
Proof.
  destruct (destroyed s) eqn:Hd; [unfold feed; rewrite Hd; reflexivity |].
  destruct (useAudioContext s) eqn:Hu.
  - rewrite feed_manual by assumption. cbn [or_else].
    destruct (processAudioContextQueue_cases
                (set_pendingBuffer (pendingBuffer s ++ chunk) s))
      as [-> | (c & _ & _ & ->)]; reflexivity.
  - unfold feed. rewrite Hd, Hu. same_field.
Qed.

Ltac unchanged :=
  match goal with
  | |- (?a <= ?b)%Q => replace b with a; [apply Qle_refl | same_field]
  end.

Lemma step_advancing (s : SpeechPlayer) (e : event) :
  advancing e = true ->
  (nextStartTime s <= nextStartTime (step s e))%Q.
Proof.
  intros He. destruct e; try discriminate He; cbn [step].
  - rewrite feed_nextStartTime. apply Qle_refl.
  - unchanged.
  - unchanged.
  - unchanged.
  - unchanged.
  - unchanged.
  - unchanged.
  - destruct (task_of id s) as [[|] |]; unchanged.
  - unchanged.
  - unchanged.
  - destruct (nth_error (decoding s) i) as [data |]; [| apply Qle_refl].
    destruct result as [buffer | err].
    + cbn [advancing] in He. apply Qle_bool_iff in He.
      unfold decode_settled. cbn [fst].
      set (t := set_decoding (remove_nth i (decoding s)) s).
      change (nextStartTime s) with (nextStartTime t).
      pose proof (schedulePlayback_le buffer t He) as Hle.
      destruct (Qeq_bool (nextStartTime (schedulePlayback buffer t)) 0
                && onPlaying (options (schedulePlayback buffer t)));
        exact Hle.
    + rewrite decode_failure. cbn. apply Qle_refl.
  - destruct (sources s); unchanged.
  - unchanged.
  - unchanged.
  - unchanged.
Qed.

(** C3.  schedulePlayback starts a segment of non-negative duration at the
    larger of nextStartTime and currentTime and sets nextStartTime to that
    start plus the duration, so nextStartTime does not decrease; and over
    any sequence of events without a re-initialisation in which every
    decoded segment has a non-negative duration, nextStartTime never
    decreases. *)
Theorem nextStartTime_monotone (s : SpeechPlayer) (buffer : AudioBuffer)
  (tr : list event) :
  (0 <= duration buffer)%Q ->
  forallb advancing tr = true ->
  let start := Qmax (nextStartTime s) (currentTime (audioContext s)) in
  log (schedulePlayback buffer s) = log s ++ [SourceStart start buffer] /\
  nextStartTime (schedulePlayback buffer s) = (start + duration buffer)%Q /\
  (nextStartTime s <= nextStartTime (schedulePlayback buffer s))%Q /\
  (nextStartTime s <= nextStartTime (run tr s))%Q.
Proof.
  intros Hd Htr start. subst start.
  split; [rewrite schedulePlayback_spec; reflexivity |].
  split; [rewrite schedulePlayback_spec; reflexivity |].
  split; [apply schedulePlayback_le; assumption |].
  clear Hd buffer. revert s. induction tr as [| e tr IH]; intros s.
  - apply Qle_refl.
  - cbn [forallb] in Htr. apply andb_true_iff in Htr. destruct Htr as [He Htr].
    change (run (e :: tr) s) with (run tr (step s e)).
    apply Qle_trans with (nextStartTime (step s e)).
    + apply step_advancing. assumption.
    + apply IH. assumption.
Qed.

Lemma nextStartTime_monotone_witness :
  (nextStartTime manual_player
   <= nextStartTime (schedulePlayback (mkAudioBuffer (3 # 2)) manual_player))%Q
  /\
  (nextStartTime manual_player
   <= nextStartTime (run sample_schedules manual_player))%Q.
Proof.
  assert (Hd : (0 <= duration (mkAudioBuffer (3 # 2)))%Q)
    by (vm_compute; discriminate).
  pose proof (nextStartTime_monotone manual_player (mkAudioBuffer (3 # 2))
                sample_schedules Hd eq_refl) as H.
  cbv zeta in H. destruct H as (_ & _ & H3 & H4). split; assumption.
Defined.

(** ** The first decoded segment *)

(** What a successful decode does: schedule, then test the play-head that
    schedulePlayback has just advanced. *)
Lemma decode_success (dataToDecode : Uint8Array) (buffer : AudioBuffer)
  (s : SpeechPlayer) :
  decode_settled dataToDecode (Normal buffer) s
  = (if Qeq_bool
          (Qmax (nextStartTime s) (currentTime (audioContext s))
           + duration buffer) 0
        && onPlaying (options s)
     then emit CallOnPlaying (schedulePlayback buffer s)
     else schedulePlayback buffer s, None).
Proof.
  unfold decode_settled. rewrite schedulePlayback_spec. reflexivity.
Qed.

(** C4.  The first segment of a ManualDecode player: the play-head is at 0
    when the decode succeeds, the clock is not negative and the segment has
    a positive duration.  The segment is scheduled, and onPlaying is not
    called, because the test [nextStartTime === 0] runs after
    schedulePlayback has set nextStartTime to the end of the segment. *)
Theorem first_segment_skips_onPlaying (s : SpeechPlayer) (i : nat)
  (dataToDecode : Uint8Array) (buffer : AudioBuffer) :
  nth_error (decoding s) i = Some dataToDecode ->
  onPlaying (options s) = true ->
  (nextStartTime s == 0)%Q ->
  (0 <= currentTime (audioContext s))%Q ->
  (0 < duration buffer)%Q ->
  log (step s (DecodeDone i (Normal buffer)))
  = log s
    ++ [SourceStart (Qmax (nextStartTime s) (currentTime (audioContext s)))
          buffer] /\
  calls CallOnPlaying (step s (DecodeDone i (Normal buffer)))
  = calls CallOnPlaying s.
Proof.
  intros Hi Hon Hn Hc Hd. cbn [step]. rewrite Hi, decode_success.
  cbn [fst].
  set (t := set_decoding (remove_nth i (decoding s)) s).
  change (nextStartTime t) with (nextStartTime s).
  change (audioContext t) with (audioContext s).
  destruct (Qeq_bool
              (Qmax (nextStartTime s) (currentTime (audioContext s))
               + duration buffer) 0) eqn:Hz.
  - exfalso. apply Qeq_bool_iff in Hz.
    pose proof (Q.le_max_l (nextStartTime s) (currentTime (audioContext s))).
    lra.
  - cbn [andb]. rewrite schedulePlayback_spec. split; [reflexivity |].
    unfold calls, emit. cbn. rewrite filter_app, length_app. cbn. lia.
Qed.

Lemma first_segment_skips_onPlaying_witness :
  log (step first_decode_pending (DecodeDone 0 (Normal (mkAudioBuffer 1))))
  = [DecodeAudioData [x41]; SourceStart 0 (mkAudioBuffer 1)] /\
  calls CallOnPlaying
    (step first_decode_pending (DecodeDone 0 (Normal (mkAudioBuffer 1))))
  = 0%nat.
Proof.
  apply (first_segment_skips_onPlaying first_decode_pending 0 [x41]
           (mkAudioBuffer 1)).
  - reflexivity.
  - reflexivity.
  - reflexivity.
  - vm_compute. discriminate.
  - reflexivity.
Defined.

(** ** play and pause without a transition *)

(** C5, as stated, fails for play in ManualDecode mode: a running player
    resolves true. *)
Lemma play_while_running_resolves_true :
  useAudioContext manual_player = true /\
  playing manual_player = true /\
  play manual_player = (manual_player, Resolved true) /\
  snd (play manual_player) <> Resolved false.
Proof.
  repeat split. cbn. discriminate.
Qed.

(** C5, amended.  pause() on a paused player resolves false in both modes;
    play() on a playing player resolves false in StreamingBuffer mode and
    true in ManualDecode mode.  None of these calls changes the player or
    reaches the platform or a callback. *)
Theorem play_pause_without_transition (s : SpeechPlayer) :
  (paused s = true -> pause s = (s, Resolved false)) /\
  (playing s = true -> useAudioContext s = false ->
   play s = (s, Resolved false)) /\
  (playing s = true -> useAudioContext s = true ->
   play s = (s, Resolved true)).
Proof.
  unfold playing, pause, play, playing, paused.
  destruct (useAudioContext s).
  - destruct (ctx_state (audioContext s)); cbn; repeat split;
      intros; congruence.
  - destruct (audio s) as [[[|]] |]; cbn; repeat split; intros; congruence.
Qed.

Lemma play_pause_without_transition_witness :
  pause streaming_player = (streaming_player, Resolved false) /\
  pause manual_suspended = (manual_suspended, Resolved false) /\
  play streaming_playing = (streaming_playing, Resolved false) /\
  play manual_player = (manual_player, Resolved true).
Proof.
  split; [| split; [| split]].
  - apply (play_pause_without_transition streaming_player). reflexivity.
  - apply (play_pause_without_transition manual_suspended). reflexivity.
  - apply (play_pause_without_transition streaming_playing); reflexivity.
  - apply (play_pause_without_transition manual_player); reflexivity.
Defined.

(** ** The end of the stream in ManualDecode mode *)


(** *** The listener in a run without a second init

    A cut leaves the sync word behind, so pendingBuffer keeps at least two
    bytes from the first cut on; only init empties it again.  In a run that
    starts with the constructor and one init, the "ended" listener therefore
    finds a non-empty pendingBuffer and does not call onChunkEnd. *)

Lemma skipn_length_of (a : Uint8Array) (c : Z) :
  0 <= c <= length_of a ->
  length_of (skipn (Z.to_nat c) a) = length_of a - c.
Proof. intros Hc. unfold length_of in *. rewrite length_skipn. lia. Qed.

Lemma feed_uncut_or_buffered (chunk : Uint8Array) (s : SpeechPlayer) :
  uncut_or_buffered s -> uncut_or_buffered (or_else (feed chunk s) s).
Proof.
  intros Hs. destruct (destroyed s) eqn:Hd;
    [unfold feed; rewrite Hd; assumption |].
  destruct (useAudioContext s) eqn:Hu.
  - rewrite feed_manual by assumption. cbn [or_else].
    destruct (processAudioContextQueue_cases
                (set_pendingBuffer (pendingBuffer s ++ chunk) s))
      as [-> | (c & _ & Hc & ->)].
    + destruct Hs as [Hs | Hs]; [left; exact Hs | right]. cbn.
      rewrite length_of_app. pose proof (length_of_nonneg chunk). lia.
    + right. cbn in *. rewrite skipn_length_of; lia.
  - unfold feed. rewrite Hd, Hu. unfold uncut_or_buffered in *.
    same_field.
Qed.

Lemma step_uncut_or_buffered (s : SpeechPlayer) (e : event) :
  same_init e = true ->
  uncut_or_buffered s -> uncut_or_buffered (step s e).
Proof.
  intros He Hs. destruct e; try discriminate He; cbn [step].
  - apply feed_uncut_or_buffered. assumption.
  - unfold uncut_or_buffered in *. same_field.
  - unfold uncut_or_buffered in *. same_field.
  - unfold uncut_or_buffered in *. same_field.
  - unfold uncut_or_buffered in *. same_field.
  - unfold uncut_or_buffered in *. same_field.
  - unfold uncut_or_buffered in *. same_field.
  - unfold uncut_or_buffered in *.
    destruct (task_of id s) as [[|] |]; same_field.
  - unfold uncut_or_buffered in *. same_field.
  - unfold uncut_or_buffered in *. same_field.
  - destruct (nth_error (decoding s) i) as [data |] eqn:Hi; [| assumption].
    assert (Hb : 2 <= length_of (pendingBuffer s)).
    { destruct Hs as [[_ Hs] | Hs]; [| assumption].
      rewrite Hs in Hi. destruct i; discriminate Hi. }
    right. destruct result as [buffer | err].
    + rewrite decode_success. cbn [fst]. rewrite schedulePlayback_spec.
      split_ifs; exact Hb.
    + rewrite decode_failure. exact Hb.
  - destruct (sources s) as [| n] eqn:Hn; [assumption |].
    assert (Hb : 2 <= length_of (pendingBuffer s)).
    { destruct Hs as [[Hs _] | Hs]; [congruence | assumption]. }
    right. unfold onended, call, emit. split_ifs; exact Hb.
  - unfold uncut_or_buffered in *. same_field.
  - unfold uncut_or_buffered in *. same_field.
  - unfold uncut_or_buffered in *. same_field.
Qed.

Lemma run_uncut_or_buffered (tr : list event) (s : SpeechPlayer) :
  forallb same_init tr = true ->
  uncut_or_buffered s -> uncut_or_buffered (run tr s).
Proof.
  revert s. induction tr as [| e tr IH]; intros s Htr Hs; [assumption |].
  cbn [forallb] in Htr. apply andb_true_iff in Htr. destruct Htr as [He Htr].
  change (run (e :: tr) s) with (run tr (step s e)).
  apply IH; [assumption |]. apply step_uncut_or_buffered; assumption.
Qed.

(** X14.  After the constructor and one init, however the run goes on
    without another init, an "ended" event never calls onChunkEnd: it only
    retires the buffer source.  A cut leaves the sync word in pendingBuffer,
    so the listener never finds it empty. *)
Lemma onended_silent_without_reinit (opts : option Options) (h : Host)
  (tr : list event) :
  forallb same_init tr = true ->
  let s := run tr (fst (init h (constructor opts))) in
  step s Ended = match sources s with S n => set_sources n s | O => s end.
Proof.
  intros Htr s.
  assert (Hs : uncut_or_buffered s).
  { subst s. apply run_uncut_or_buffered; [assumption |].
    left. unfold init, constructor. cbn. split_ifs; split; reflexivity. }
  cbn [step]. destruct (sources s) as [| n] eqn:Hn; [reflexivity |].
  destruct Hs as [[Hs _] | Hs]; [congruence |].
  unfold onended.
  change (pendingBuffer (set_sources n s)) with (pendingBuffer s).
  replace (length_of (pendingBuffer s) =? 0) with false; [reflexivity |].
  symmetry. apply Z.eqb_neq. lia.
Qed.

(** ** The stall timer of StreamingBuffer mode *)

(** The "waiting" listener arms a timeout of 500 ms that runs the stall
    check, and keeps its id in [timer]. *)
Lemma on_waiting_arms (s : SpeechPlayer) :
  log (on_waiting s) = log s ++ [SetTimeout (next_id s) 500] /\
  timeouts (on_waiting s) = timeouts s ++ [(next_id s, stall_task)] /\
  timer (on_waiting s) = next_id s.
Proof. repeat split. Qed.

(** When the timeout fires, the stream is sealed and onChunkEnd called
    exactly when the source buffer is idle, the media source open and the
    chunk queue empty. *)
Lemma on_stall_timeout_spec (s : SpeechPlayer) :
  onChunkEnd (options s) = true ->
  (updating (sourceBuffer s) = false /\
   readyState (mediaSource s) = rs_open /\
   sourceBufferCache s = [] ->
   log (on_stall_timeout s) = log s ++ [EndOfStream; CallOnChunkEnd] /\
   readyState (mediaSource (on_stall_timeout s)) = rs_ended) /\
  (~ (updating (sourceBuffer s) = false /\
      readyState (mediaSource s) = rs_open /\
      sourceBufferCache s = []) ->
   on_stall_timeout s = s).
Proof.
  intros Hcb. unfold on_stall_timeout. rewrite Hcb.
  destruct (updating (sourceBuffer s)), (readyState (mediaSource s)),
    (sourceBufferCache s); cbn; split;
    try (intros (H1 & H2 & H3); discriminate);
    try (intros; reflexivity).
  - intros _. unfold endOfStream, emit. cbn. rewrite <- app_assoc.
    split; reflexivity.
  - intros H. exfalso. apply H. repeat split.
Qed.

Lemma task_of_filter (id : Z) (l : list (Z * task)) :
  find (fun p => fst p =? id) (filter (other_than id) l) = None.
Proof.
  induction l as [| p l IH]; [reflexivity |].
  cbn. unfold other_than at 1. destruct (fst p =? id) eqn:Hp; cbn.
  - assumption.
  - rewrite Hp. assumption.
Qed.

(** The "updateend" listener cancels the timeout whose id is in [timer]. *)
Lemma on_updateend_clears (s : SpeechPlayer) :
  timer s <> 0 -> task_of (timer s) (on_updateend s) = None.
Proof.
  intros Ht. apply Z.eqb_neq in Ht.
  assert (Hto : timeouts (on_updateend s)
                = filter (other_than (timer s)) (timeouts s)).
  { unfold on_updateend. rewrite Ht.
    unfold clearTimeout, audio_play, appendBuffer, emit. cbn.
    split_ifs; reflexivity. }
  unfold task_of. rewrite Hto, task_of_filter. reflexivity.
Qed.

(** One stall followed by a write completion: the timeout is gone. *)
Lemma stall_then_updateend_cancels (s : SpeechPlayer) :
  0 < next_id s ->
  task_of (next_id s) (step (step s Waiting) UpdateEnd) = None.
Proof.
  intros Hid. cbn [step].
  set (t := set_sourceBuffer (mkSourceBuffer false) (on_waiting s)).
  assert (Ht : timer t = next_id s) by reflexivity.
  rewrite <- Ht. apply on_updateend_clears. lia.
Qed.

(** C9.  A second "waiting" before the next "updateend" overwrites [timer],
    so the timeout of the first stall is never cancelled: here it fires after
    a chunk has been written and its "updateend" has been handled, and it
    seals the stream and calls onChunkEnd. *)
Theorem stall_timeout_survives_updateend :
  log (run stall_race streaming_playing)
  = log streaming_playing
    ++ [SetTimeout 1 500; AudioPause; SetTimeout 2 0; AudioPlay;
        SetTimeout 3 500; AppendBuffer [x41]; ClearTimeout 3;
        EndOfStream; CallOnChunkEnd]
  /\ readyState (mediaSource (run stall_race streaming_playing)) = rs_ended.
Proof. split; reflexivity. Qed.

(** ** Initialising a destroyed player again *)

(** C10.  On a destroyed player init() clears the destroyed flag in either
    mode; when it selects ManualDecode it also sets nextStartTime to 0 and
    pendingBuffer to the empty array.  A feed after that no longer throws the
    ReferenceError of a destroyed player, and in ManualDecode mode it does
    not throw at all. *)
Theorem init_revives_destroyed (h : Host) (s : SpeechPlayer)
  (chunk : Uint8Array) :
  destroyed s = true ->
  destroyed (fst (init h s)) = false /\
  (useAudioContext (fst (init h s)) = true ->
   nextStartTime (fst (init h s)) = 0%Q /\
   pendingBuffer (fst (init h s)) = [] /\
   exists s', feed chunk (fst (init h s)) = Normal s') /\
  (forall msg, feed chunk (fst (init h s)) <> Throw (ReferenceError msg)).
Proof.
  intros _.
  assert (Hd : destroyed (fst (init h s)) = false).
  { unfold init. split_ifs; reflexivity. }
  split; [assumption |]. split.
  - intros Hu. split; [| split].
    + unfold init in *. revert Hu. split_ifs; cbn; congruence.
    + unfold init in *. revert Hu. split_ifs; cbn; congruence.
    + rewrite feed_manual by assumption. eexists. reflexivity.
  - intros msg H.
    exact (feed_alive chunk _ Hd msg H).
Qed.

Lemma init_revives_destroyed_witness :
  destroyed (destroy first_decode_pending) = true /\
  pendingBuffer (destroy first_decode_pending) = [xff; xfb] /\
  destroyed (fst (init fallback_host (destroy first_decode_pending))) = false
  /\
  pendingBuffer (fst (init fallback_host (destroy first_decode_pending))) = []
  /\
  forall msg,
    feed [x41] (fst (init mse_host (destroy streaming_playing)))
    <> Throw (ReferenceError msg).
Proof.
  split; [reflexivity |]. split; [reflexivity |].
  destruct (init_revives_destroyed fallback_host
              (destroy first_decode_pending) [x41] eq_refl)
    as (H1 & H2 & _).
  destruct (H2 eq_refl) as (_ & H3 & _).
  split; [exact H1 |]. split; [exact H3 |].
  apply (init_revives_destroyed mse_host (destroy streaming_playing) [x41]).
  reflexivity.
Defined.

(** * Further properties *)

(** ** The cut *)

Lemma get_skipn (a : Uint8Array) (c i : Z) :
  0 <= c -> 0 <= i -> get (skipn (Z.to_nat c) a) i = get a (c + i).
Proof.
  intros Hc Hi. unfold get.
  replace (i <? 0) with false by (symmetry; apply Z.ltb_ge; lia).
  replace (c + i <? 0) with false by (symmetry; apply Z.ltb_ge; lia).
  rewrite nth_error_skipn. f_equal. lia.
Qed.

Lemma sync_at_skipn (a : Uint8Array) (c : Z) :
  0 <= c -> sync_at (skipn (Z.to_nat c) a) 0 = sync_at a c.
Proof.
  intros Hc. unfold sync_at.
  rewrite !get_skipn by lia. rewrite Z.add_0_r. reflexivity.
Qed.

Lemma cutIndex_positive_boundary (a : Uint8Array) :
  0 < cutIndex a -> boundary a (cutIndex a).
Proof.
  intros Hc. destruct (cutIndex_spec a) as [[H _] | [H _]]; [lia | exact H].
Qed.

(** X1.  A buffer of fewer than three bytes is never cut.  When
    processAudioContextQueue does cut, the range handed to the decoder is
    not empty and the remainder kept in pendingBuffer starts with a sync
    word: 0xFF followed by a byte whose three top bits are set. *)
Theorem split_keeps_sync_word (s : SpeechPlayer) :
  (length_of (pendingBuffer s) < 3 -> processAudioContextQueue s = s) /\
  (processAudioContextQueue s = s \/
   exists dataToDecode,
     decoding (processAudioContextQueue s) = decoding s ++ [dataToDecode] /\
     dataToDecode <> [] /\
     sync_at (pendingBuffer (processAudioContextQueue s)) 0 = true /\
     dataToDecode ++ pendingBuffer (processAudioContextQueue s)
     = pendingBuffer s).
Proof.
  destruct (processAudioContextQueue_cases s)
    as [H | (c & Hc & Hr & H)].
  - split; [intros _; exact H | left; exact H].
  - split; [intros Hl; lia |]. right. rewrite H.
    exists (firstn (Z.to_nat c) (pendingBuffer s)).
    split; [reflexivity |]. split; [| split].
    + intros Hnil. apply (f_equal (@List.length byte)) in Hnil.
      rewrite length_firstn in Hnil. unfold length_of in Hr.
      cbn in Hnil. lia.
    + cbn. rewrite sync_at_skipn by lia. apply sync_at_boundary.
      subst c. apply cutIndex_positive_boundary. lia.
    + cbn. apply firstn_skipn.
Qed.

Lemma split_keeps_sync_word_witness :
  processAudioContextQueue (set_pendingBuffer [xff; xfb] manual_player)
  = set_pendingBuffer [xff; xfb] manual_player.
Proof.
  apply (split_keeps_sync_word (set_pendingBuffer [xff; xfb] manual_player)).
  reflexivity.
Defined.

Lemma get_app_left (a b : Uint8Array) (i : Z) (x : byte) :
  get a i = Some x -> get (a ++ b) i = Some x.
Proof.
  intros H. pose proof (get_some_range a i x H) as Hr.
  unfold get in *. destruct (i <? 0); [discriminate H |].
  rewrite nth_error_app1; [exact H |]. unfold length_of in Hr. lia.
Qed.

Lemma boundary_app (a b : Uint8Array) (i : Z) :
  boundary a i -> boundary (a ++ b) i.
Proof.
  intros [Hr (x & y & Hx & Hy & H1 & H2)]. split.
  - rewrite length_of_app. pose proof (length_of_nonneg b). lia.
  - exists x, y. repeat split; try assumption; apply get_app_left; assumption.
Qed.

(** More bytes never move the cut backwards. *)
Lemma cutIndex_app (a b : Uint8Array) : cutIndex a <= cutIndex (a ++ b).
Proof.
  destruct (cutIndex_spec a) as [[Ha _] | [Ha _]].
  - destruct (cutIndex_range (a ++ b)); lia.
  - apply boundary_app with (b := b) in Ha.
    destruct (cutIndex_spec (a ++ b)) as [[_ Hno] | [_ Hmax]].
    + exfalso. exact (Hno _ Ha).
    + apply Hmax. exact Ha.
Qed.

Lemma sync_at_skipn_at (a : Uint8Array) (c j : Z) :
  0 <= c -> 0 <= j -> sync_at (skipn (Z.to_nat c) a) j = sync_at a (c + j).
Proof.
  intros Hc Hj. unfold sync_at.
  rewrite !get_skipn by lia. rewrite Z.add_assoc. reflexivity.
Qed.

(** The cut index of what is left behind an earlier cut. *)
Lemma cutIndex_skipn (a : Uint8Array) (c : Z) :
  0 <= c <= cutIndex a ->
  cutIndex (skipn (Z.to_nat c) a) = cutIndex a - c.
Proof.
  intros Hc. destruct (cutIndex_spec a) as [[H _] | [Hb Hmax]]; [lia |].
  apply cutIndex_largest.
  - apply sync_at_boundary. rewrite sync_at_skipn_at by lia.
    replace (c + (cutIndex a - c)) with (cutIndex a) by lia.
    apply sync_at_boundary. exact Hb.
  - intros j Hj. assert (0 <= j) by (destruct Hj; lia).
    apply sync_at_boundary in Hj. rewrite sync_at_skipn_at in Hj by lia.
    apply sync_at_boundary, Hmax in Hj. lia.
Qed.

Ltac same_submitted :=
  unfold on_waiting, on_updateend, on_stall_timeout, on_playing,
    on_pause, sourceOpenHandle, play, pause, play_resumed, pause_suspended,
    onended, schedulePlayback, paused, playing, setTimeout, clearTimeout,
    expire, appendBuffer, endOfStream, audio_play, audio_pause, call, emit;
  cbn; split_ifs; cbn;
  rewrite ?submitted_app; cbn; rewrite ?app_nil_r; auto.

(** In ManualDecode mode only feed changes what is buffered and what is
    handed to the decoder; a decode that fails changes neither. *)
Lemma step_alive_manual (s : SpeechPlayer) (e : event) :
  alive e = true ->
  destroyed s = false -> useAudioContext s = true ->
  destroyed (step s e) = false /\
  useAudioContext (step s e) = true /\
  match e with
  | Feed chunk =>
      step s e
      = processAudioContextQueue
          (set_pendingBuffer (pendingBuffer s ++ chunk) s)
  | _ =>
      submitted (log (step s e)) = submitted (log s) /\
      pendingBuffer (step s e) = pendingBuffer s
  end.
Proof.
  intros He Hd Hu. destruct e; try discriminate He; cbn [step].
  - rewrite feed_manual by assumption. cbn [or_else].
    destruct (processAudioContextQueue_stream
                (set_pendingBuffer (pendingBuffer s ++ chunk) s))
      as (_ & H2 & H3).
    rewrite H2, H3. auto.
  - unfold play. rewrite Hu. same_submitted.
  - unfold pause. rewrite Hu. same_submitted.
  - same_submitted.
  - same_submitted.
  - same_submitted.
  - destruct (task_of id s) as [[|] |]; same_submitted.
  - same_submitted.
  - same_submitted.
  - destruct (nth_error (decoding s) i); [| auto].
    destruct result as [buffer | err].
    + rewrite decode_success. cbn [fst]. same_submitted.
    + rewrite decode_failure. cbn [fst]. same_submitted.
  - destruct (sources s); same_submitted.
  - same_submitted.
  - same_submitted.
  - same_submitted.
Qed.

Lemma step_alive_stream (s : SpeechPlayer) (e : event) :
  alive e = true ->
  destroyed s = false -> useAudioContext s = true ->
  stream_of (step s e) = stream_of s ++ concat (fed [e]).
Proof.
  intros He Hd Hu.
  destruct (step_alive_manual s e He Hd Hu) as (_ & _ & H).
  destruct e; try discriminate He; cbn [fed concat]; rewrite ?app_nil_r;
    try (unfold stream_of; rewrite (proj1 H), (proj2 H); reflexivity).
  rewrite H.
  destruct (processAudioContextQueue_stream
              (set_pendingBuffer (pendingBuffer s ++ chunk) s)) as (H1 & _).
  rewrite H1. unfold stream_of. cbn. apply app_assoc.
Qed.

(** The decoder has the stream up to its last sync word. *)
Lemma step_cut_at_last_sync (s : SpeechPlayer) (e : event) :
  alive e = true ->
  destroyed s = false -> useAudioContext s = true ->
  length_of (concat (submitted (log s)))
  = Z.max 0 (cutIndex (stream_of s)) ->
  length_of (concat (submitted (log (step s e))))
  = Z.max 0 (cutIndex (stream_of (step s e))).
Proof.
  intros He Hd Hu Hinv.
  destruct (step_alive_manual s e He Hd Hu) as (_ & _ & H).
  destruct e; try discriminate He;
    try (unfold stream_of in *; rewrite (proj1 H), (proj2 H); exact Hinv).
  rewrite H. clear H.
  set (D := concat (submitted (log s))) in *.
  set (B := pendingBuffer s ++ chunk).
  set (t := set_pendingBuffer B s).
  assert (HT : stream_of s ++ chunk = D ++ B).
  { unfold stream_of, B. fold D. symmetry. apply app_assoc. }
  assert (Hclaim : Z.max 0 (cutIndex (D ++ B))
                   = length_of D + Z.max 0 (cutIndex B)).
  { destruct (Z_le_gt_dec (cutIndex (stream_of s)) 0) as [Hle | Hgt].
    - rewrite Z.max_l in Hinv by lia. apply length_of_zero in Hinv.
      rewrite Hinv. reflexivity.
    - rewrite Z.max_r in Hinv by lia.
      assert (Hb : boundary (D ++ B) (cutIndex (stream_of s))).
      { rewrite <- HT. apply boundary_app.
        apply cutIndex_positive_boundary. lia. }
      assert (Hge : cutIndex (stream_of s) <= cutIndex (D ++ B)).
      { destruct (cutIndex_spec (D ++ B)) as [[_ Hno] | [_ Hmax]];
          [exfalso; exact (Hno _ Hb) | exact (Hmax _ Hb)]. }
      assert (Hskip : skipn (Z.to_nat (length_of D)) (D ++ B) = B).
      { unfold length_of. rewrite Nat2Z.id, skipn_app, Nat.sub_diag.
        rewrite skipn_all. reflexivity. }
      pose proof (cutIndex_skipn (D ++ B) (length_of D)) as Hcs.
      rewrite Hskip in Hcs. rewrite Hcs by lia. lia. }
  destruct (processAudioContextQueue_cut t) as [Hno Hyes].
  change (pendingBuffer t) with B in *.
  destruct (Z_le_gt_dec (cutIndex B) 0) as [Hle | Hgt].
  - rewrite (Hno Hle). unfold stream_of. cbn. fold D.
    rewrite Hclaim. lia.
  - rewrite (Hyes ltac:(lia)).
    destruct (cutIndex_range B) as [Hm | Hr]; [lia |].
    unfold stream_of, decodeAudioData, emit. cbn.
    rewrite submitted_app, concat_app. cbn. fold D.
    rewrite app_nil_r, <- app_assoc, firstn_skipn, Hclaim.
    rewrite length_of_app. unfold length_of at 2.
    rewrite length_firstn. unfold length_of in Hr. lia.
Qed.

Lemma run_alive_manual (tr : list event) (s : SpeechPlayer) :
  forallb alive tr = true ->
  destroyed s = false -> useAudioContext s = true ->
  stream_of (run tr s) = stream_of s ++ concat (fed tr) /\
  (length_of (concat (submitted (log s)))
   = Z.max 0 (cutIndex (stream_of s)) ->
   length_of (concat (submitted (log (run tr s))))
   = Z.max 0 (cutIndex (stream_of (run tr s)))).
Proof.
  revert s. induction tr as [| e tr IH]; intros s Htr Hd Hu.
  - cbn. rewrite app_nil_r. auto.
  - cbn [forallb] in Htr. apply andb_true_iff in Htr. destruct Htr as [He Htr].
    destruct (step_alive_manual s e He Hd Hu) as (Hd1 & Hu1 & _).
    destruct (IH (step s e) Htr Hd1 Hu1) as [IH1 IH2].
    change (run (e :: tr) s) with (run tr (step s e)). split.
    + rewrite IH1, (step_alive_stream s e He Hd Hu), <- app_assoc.
      f_equal. destruct e; cbn [fed concat app]; rewrite ?app_nil_r;
        reflexivity.
    + intros Hinv. apply IH2.
      apply step_cut_at_last_sync; assumption.
Qed.

(** X2.  A ManualDecode player that starts with nothing buffered and
    nothing submitted, over any run without init and destroy, decodes
    failing or not: the decoder has been handed exactly the bytes before the
    last sync word of the stream fed so far (no byte when that sync word is
    at index 0 or there is none), and pendingBuffer holds the rest.  Where
    the chunks are divided makes no difference. *)
Theorem cut_is_independent_of_chunking (s : SpeechPlayer) (tr : list event) :
  destroyed s = false -> useAudioContext s = true ->
  submitted (log s) = [] -> pendingBuffer s = [] ->
  forallb alive tr = true ->
  let total := concat (fed tr) in
  let cut := Z.to_nat (Z.max 0 (cutIndex total)) in
  concat (submitted (log (run tr s))) = firstn cut total /\
  pendingBuffer (run tr s) = skipn cut total.
Proof.
  intros Hd Hu Hs Hp Htr total cut.
  destruct (run_alive_manual tr s Htr Hd Hu) as [Hstream Hinv].
  assert (H0 : stream_of s = []) by (unfold stream_of; rewrite Hs, Hp;
                                     reflexivity).
  rewrite H0 in *. cbn [app] in Hstream. fold total in Hstream.
  rewrite Hs in Hinv. specialize (Hinv eq_refl).
  rewrite Hstream in Hinv. fold cut in Hinv.
  unfold stream_of in Hstream.
  assert (Hlen : List.length (concat (submitted (log (run tr s)))) = cut).
  { subst cut. unfold length_of in Hinv. lia. }
  rewrite <- Hstream, <- Hlen.
  rewrite firstn_app, Nat.sub_diag, firstn_all, skipn_app, Nat.sub_diag.
  rewrite skipn_all. cbn. rewrite app_nil_r. auto.
Qed.

Lemma cut_is_independent_of_chunking_witness :
  concat (submitted (log (run sample_feeds manual_player)))
  = [x41; xff; xfb; x00] /\
  pendingBuffer (run sample_feeds manual_player) = [xff; xe3; x07].
Proof.
  exact (cut_is_independent_of_chunking manual_player sample_feeds
           eq_refl eq_refl eq_refl eq_refl eq_refl).
Defined.

(** X7.  ManualDecode mode, any run without init and destroy, decodes
    failing or succeeding in any order: the byte ranges handed to the
    decoder, in the order of the calls, followed by pendingBuffer are the
    bytes that were there before followed by the bytes fed.  A failed decode
    puts nothing back: no byte reaches the decoder twice or out of order. *)
Theorem stream_order_survives_failures (s : SpeechPlayer) (tr : list event) :
  destroyed s = false -> useAudioContext s = true ->
  forallb alive tr = true ->
  concat (submitted (log (run tr s))) ++ pendingBuffer (run tr s)
  = (concat (submitted (log s)) ++ pendingBuffer s) ++ concat (fed tr).
Proof.
  intros Hd Hu Htr. apply (run_alive_manual tr s Htr Hd Hu).
Qed.

Lemma stream_order_survives_failures_witness :
  concat (submitted (log (run sample_failures manual_player)))
  ++ pendingBuffer (run sample_failures manual_player)
  = [x41; xff; xfb; x00; xff; xe3; x07; x08; xff; xfb].
Proof.
  exact (stream_order_survives_failures manual_player sample_failures
           eq_refl eq_refl eq_refl).
Defined.

(** ** The chunk queue of StreamingBuffer mode *)

Lemma appended_app (l r : list effect) :
  appended (l ++ r) = appended l ++ appended r.
Proof.
  induction l as [| e l IH]; [reflexivity |].
  destruct e; cbn; rewrite IH; reflexivity.
Qed.

Ltac same_queue :=
  unfold on_waiting, on_updateend, on_stall_timeout, on_playing,
    on_pause, sourceOpenHandle, play, pause, play_resumed, pause_suspended,
    onended, schedulePlayback, paused, playing, setTimeout, clearTimeout,
    expire, appendBuffer, endOfStream, audio_play, audio_pause, call, emit;
  cbn; split_ifs; cbn;
  rewrite ?appended_app; cbn; rewrite ?app_nil_r, <- ?app_assoc; auto.

Lemma step_queue (s : SpeechPlayer) (e : event) :
  alive e = true ->
  destroyed s = false -> useAudioContext s = false ->
  mediaSourceOpened s = true ->
  destroyed (step s e) = false /\
  useAudioContext (step s e) = false /\
  mediaSourceOpened (step s e) = true /\
  appended (log (step s e)) ++ sourceBufferCache (step s e)
  = (appended (log s) ++ sourceBufferCache s) ++ fed [e].
Proof.
  intros He Hd Hu Ho. destruct e; try discriminate He; cbn [step fed];
    rewrite ?app_nil_r.
  - (* Feed *)
    unfold feed. rewrite Hd, Hu, Ho. cbn.
    destruct (updating (sourceBuffer s)); cbn.
    + rewrite app_assoc. auto.
    + destruct (sourceBufferCache s) as [| first rest]; cbn;
        unfold appendBuffer, emit; cbn; rewrite appended_app; cbn;
        rewrite <- ?app_assoc; auto.
  - unfold play. rewrite Hu. same_queue.
  - unfold pause. rewrite Hu. same_queue.
  - same_queue.
  - unfold on_updateend, clearTimeout, audio_play, appendBuffer, emit. cbn.
    destruct (timer s =? 0); cbn; destruct (audio s) as [[[|]] |]; cbn;
      destruct (sourceBufferCache s) as [| first rest] eqn:Hc; cbn;
      rewrite ?appended_app; cbn; rewrite ?Hc, ?app_nil_r, <- ?app_assoc;
      auto.
  - same_queue.
  - destruct (task_of id s) as [[|] |]; same_queue.
  - same_queue.
  - same_queue.
  - destruct (nth_error (decoding s) i); [| auto].
    destruct result as [buffer | err].
    + rewrite decode_success. cbn [fst]. same_queue.
    + rewrite decode_failure. cbn [fst]. same_queue.
  - destruct (sources s); same_queue.
  - same_queue.
  - same_queue.
  - same_queue.
Qed.

(** X3.  StreamingBuffer mode, media source open, over any events except
    init and destroy: the chunks handed to appendBuffer, in the order of the
    calls, followed by the chunks still queued, are the chunks that were
    there before followed by the chunks fed, in order.  No chunk is dropped,
    repeated or reordered. *)
Theorem streaming_queue_is_fifo (s : SpeechPlayer) (tr : list event) :
  destroyed s = false -> useAudioContext s = false ->
  mediaSourceOpened s = true ->
  forallb alive tr = true ->
  appended (log (run tr s)) ++ sourceBufferCache (run tr s)
  = (appended (log s) ++ sourceBufferCache s) ++ fed tr.
Proof.
  revert s. induction tr as [| e tr IH]; intros s Hd Hu Ho Htr.
  - cbn. rewrite app_nil_r. reflexivity.
  - cbn [forallb] in Htr. apply andb_true_iff in Htr. destruct Htr as [He Htr].
    destruct (step_queue s e He Hd Hu Ho) as (Hd1 & Hu1 & Ho1 & Hq).
    change (run (e :: tr) s) with (run tr (step s e)).
    rewrite (IH (step s e) Hd1 Hu1 Ho1 Htr), Hq, <- !app_assoc.
    f_equal. f_equal. destruct e; reflexivity.
Qed.

Lemma streaming_queue_is_fifo_witness :
  appended (log (run sample_writes streaming_player))
  ++ sourceBufferCache (run sample_writes streaming_player)
  = [[x01]; [x02]; [x03]; [x04]].
Proof.
  exact (streaming_queue_is_fifo streaming_player sample_writes
           eq_refl eq_refl eq_refl eq_refl).
Defined.

Ltac count_writes H :=
  unfold init, destroy, on_waiting, on_updateend, on_stall_timeout,
    on_playing, on_pause, sourceOpenHandle, play, pause, play_resumed,
    pause_suspended, onended, schedulePlayback, paused, playing, setTimeout,
    clearTimeout, expire, appendBuffer, endOfStream, audio_play, audio_pause,
    decodeAudioData, call, emit;
  cbn; rewrite ?H; split_ifs; unfold idle_credit; cbn; rewrite ?H;
  rewrite ?appended_app, ?length_app; cbn; lia.

Lemma step_outstanding (s : SpeechPlayer) (e : event) :
  (List.length (appended (log (step s e))) + idle_credit (step s e)
   <= List.length (appended (log s)) + idle_credit s + completions [e])%nat.
Proof.
  destruct (updating (sourceBuffer s)) eqn:Hup;
    destruct e; cbn [step completions];
    try (count_writes Hup);
    try (destruct (task_of id s) as [[|] |]; count_writes Hup);
    try (destruct (sources s); count_writes Hup).
  all: try (destruct (nth_error (decoding s) i); [| lia];
            destruct result as [buffer | err];
            [rewrite decode_success | rewrite decode_failure];
            cbn [fst]; count_writes Hup).
  all: unfold feed; destruct (destroyed s);
    [unfold idle_credit; cbn; rewrite ?Hup; lia |];
    destruct (useAudioContext s);
    [ rewrite set_from_front by apply length_of_nonneg; cbn [bind];
      rewrite set_from_back; cbn [bind or_else];
      destruct (processAudioContextQueue_cases
                  (set_pendingBuffer (pendingBuffer s ++ chunk) s))
        as [-> | (c & _ & _ & ->)]; count_writes Hup
    | destruct (mediaSourceOpened s); cbn; rewrite ?Hup; cbn;
      [| unfold idle_credit; rewrite Hup; lia];
      try (destruct (sourceBufferCache s); count_writes Hup);
      unfold idle_credit; cbn; rewrite Hup; lia ].
Qed.

(** X4.  Over any run, from any state: the appendBuffer calls made are at
    most the write completions and source opens seen, plus one when the
    source buffer was idle at the start, and one less when it is idle at the
    end.  With appendBuffer marking the buffer as updating until "updateend",
    the player never starts a write while another one is in progress. *)
Theorem one_write_at_a_time (s : SpeechPlayer) (tr : list event) :
  (List.length (appended (log (run tr s))) + idle_credit (run tr s)
   <= List.length (appended (log s)) + idle_credit s + completions tr)%nat.
Proof.
  revert s. induction tr as [| e tr IH]; intros s; [cbn; lia |].
  change (run (e :: tr) s) with (run tr (step s e)).
  specialize (IH (step s e)). pose proof (step_outstanding s e) as He.
  assert (Hc : completions (e :: tr)
               = (completions [e] + completions tr)%nat)
    by (destruct e; reflexivity).
  lia.
Qed.

(** One "updateend" with chunks queued: the oldest goes to appendBuffer. *)
Lemma updateend_shifts (s : SpeechPlayer) (a : HTMLAudioElement)
  (first : Uint8Array) (rest : list Uint8Array) :
  audio s = Some a -> sourceBufferCache s = first :: rest ->
  sourceBufferCache (step s UpdateEnd) = rest /\
  appended (log (step s UpdateEnd)) = appended (log s) ++ [first] /\
  updating (sourceBuffer (step s UpdateEnd)) = true /\
  exists a', audio (step s UpdateEnd) = Some a'.
Proof.
  intros Ha Hc. cbn [step].
  unfold on_updateend, clearTimeout, audio_play, appendBuffer, emit. cbn.
  destruct (timer s =? 0); cbn; rewrite Ha; destruct a as [[|]]; cbn;
    rewrite Hc; cbn; rewrite ?appended_app; cbn; rewrite ?app_nil_r;
    repeat split; eauto.
Qed.

(** X5.  With an audio element present, as many "updateend" events as there
    are chunks queued empty the queue: every queued chunk is handed to
    appendBuffer, oldest first, one per write completion. *)
Theorem queue_drains (s : SpeechPlayer) (a : HTMLAudioElement) :
  audio s = Some a ->
  let drained :=
    run (repeat UpdateEnd (List.length (sourceBufferCache s))) s in
  appended (log drained) = appended (log s) ++ sourceBufferCache s /\
  sourceBufferCache drained = [].
Proof.
  intros Ha drained. subst drained.
  remember (sourceBufferCache s) as cache eqn:Hc. symmetry in Hc.
  revert s a Ha Hc. induction cache as [| first rest IH]; intros s a Ha Hc.
  - cbn. rewrite app_nil_r. auto.
  - cbn [List.length repeat].
    change (run (UpdateEnd :: repeat UpdateEnd (List.length rest)) s)
      with (run (repeat UpdateEnd (List.length rest)) (step s UpdateEnd)).
    destruct (updateend_shifts s a first rest Ha Hc)
      as (Hr & Hl & _ & a' & Ha').
    destruct (IH (step s UpdateEnd) a' Ha' Hr) as [H1 H2].
    rewrite H1, Hl, <- app_assoc. auto.
Qed.

Lemma queue_drains_witness :
  appended (log (run [UpdateEnd; UpdateEnd]
                   (run [Feed [x01]; Feed [x02]; Feed [x03]]
                      streaming_player)))
  = [[x01]; [x02]; [x03]].
Proof.
  apply (queue_drains (run [Feed [x01]; Feed [x02]; Feed [x03]]
                         streaming_player) new_Audio).
  reflexivity.
Defined.

(** X6.  StreamingBuffer mode, audio element playing: pause() pauses the
    element, and the next "updateend" calls [audio.play()] again, so the
    player is playing once more. *)
Theorem pause_lasts_until_updateend (s : SpeechPlayer)
  (a : HTMLAudioElement) :
  useAudioContext s = false -> audio s = Some a -> el_paused a = false ->
  paused (fst (pause s)) = true /\
  paused (run [Pause; UpdateEnd] s) = false /\
  exists between after,
    log (run [Pause; UpdateEnd] s)
    = log s ++ [AudioPause; SetTimeout (next_id s) 0] ++ between
      ++ [AudioPlay] ++ after.
Proof.
  intros Hu Ha Hp. destruct a as [p]. cbn in Hp. subst p.
  cbn [run fold_left step].
  unfold pause, playing, paused, on_updateend, clearTimeout, audio_play,
    appendBuffer, setTimeout, audio_pause, emit.
  cbn. rewrite ?Hu, ?Ha. cbn. rewrite ?Hu. cbn.
  split; [reflexivity |].
  destruct (timer s =? 0); cbn;
    destruct (sourceBufferCache s) as [| first rest]; cbn; rewrite ?Hu;
    (split; [reflexivity |]); rewrite <- ?app_assoc; cbn.
  - exists [], []. reflexivity.
  - exists [], [AppendBuffer first]. reflexivity.
  - exists [ClearTimeout (timer s)], []. reflexivity.
  - exists [ClearTimeout (timer s)], [AppendBuffer first]. reflexivity.
Qed.

Lemma pause_lasts_until_updateend_witness :
  paused (fst (pause streaming_playing)) = true /\
  paused (run [Pause; UpdateEnd] streaming_playing) = false.
Proof.
  destruct (pause_lasts_until_updateend streaming_playing (mkAudio false)
              eq_refl eq_refl eq_refl) as (H1 & H2 & _).
  split; assumption.
Defined.

(** ** Life cycle *)

Lemma step_destroyed (s : SpeechPlayer) (e : event) :
  same_init e = true -> destroyed s = true -> destroyed (step s e) = true.
Proof.
  intros He Hd. destruct e; try discriminate He; cbn [step].
  - unfold feed. rewrite Hd. exact Hd.
  - same_field.
  - same_field.
  - same_field.
  - same_field.
  - same_field.
  - same_field.
  - destruct (task_of id s) as [[|] |]; same_field.
  - same_field.
  - same_field.
  - destruct (nth_error (decoding s) i); [| exact Hd].
    destruct result as [buffer | err].
    + rewrite decode_success. cbn [fst]. rewrite schedulePlayback_spec.
      split_ifs; exact Hd.
    + rewrite decode_failure. exact Hd.
  - destruct (sources s); same_field.
  - same_field.
  - same_field.
  - same_field.
Qed.

(** X8.  After destroy(), in either mode and whatever happens next (calls,
    listeners, decodes settling, timeouts), feed throws the ReferenceError
    until init() is called again. *)
Theorem destroyed_until_init (s : SpeechPlayer) (tr : list event)
  (chunk : Uint8Array) :
  forallb same_init tr = true ->
  feed chunk (run tr (destroy s))
  = Throw (ReferenceError "SpeechPlayer has been destroyed.").
Proof.
  intros Htr.
  assert (Hd : destroyed (run tr (destroy s)) = true).
  { assert (H0 : destroyed (destroy s) = true)
      by (unfold destroy; split_ifs; reflexivity).
    revert H0. generalize (destroy s). clear s.
    induction tr as [| e tr IH]; intros s Hs; [exact Hs |].
    cbn [forallb] in Htr. apply andb_true_iff in Htr.
    destruct Htr as [He Htr].
    change (run (e :: tr) s) with (run tr (step s e)).
    apply IH; [exact Htr |]. apply step_destroyed; assumption. }
  unfold feed. rewrite Hd. reflexivity.
Qed.

Lemma destroyed_until_init_witness :
  feed [x41]
    (run [Feed [x42]; DecodeDone 0 (Normal (mkAudioBuffer 1)); Play;
          SourceOpen; UpdateEnd; Ended]
       (destroy first_decode_pending))
  = Throw (ReferenceError "SpeechPlayer has been destroyed.").
Proof.
  apply (destroyed_until_init first_decode_pending). reflexivity.
Defined.

(** The three ways init ends. *)
Lemma init_streaming (h : Host) (s : SpeechPlayer) (a : HTMLAudioElement) :
  audio s = Some a -> supports h (mime_of s) = true ->
  init h s
  = (set_initResolve true
       (set_mediaSource (mkMediaSource rs_closed)
          (set_useAudioContext false (set_destroyed false s))),
     Pending source_open).
Proof.
  intros Ha Hs. unfold init, mime_of in *.
  change (options (set_destroyed false s)) with (options s). rewrite Hs.
  change (audio (set_mediaSource (mkMediaSource rs_closed)
            (set_useAudioContext false (set_destroyed false s))))
    with (audio s).
  rewrite Ha. reflexivity.
Qed.

Lemma init_rejected (h : Host) (s : SpeechPlayer) :
  audio s = None -> supports h (mime_of s) = true ->
  init h s
  = (set_mediaSource (mkMediaSource rs_closed)
       (set_useAudioContext false (set_destroyed false s)),
     Rejected TypeError).
Proof.
  intros Ha Hs. unfold init, mime_of in *.
  change (options (set_destroyed false s)) with (options s). rewrite Hs.
  change (audio (set_mediaSource (mkMediaSource rs_closed)
            (set_useAudioContext false (set_destroyed false s))))
    with (audio s).
  rewrite Ha. reflexivity.
Qed.

Lemma init_fallback (h : Host) (s : SpeechPlayer) :
  supports h (mime_of s) = false ->
  init h s
  = (set_pendingBuffer (new_Uint8Array 0)
       (set_nextStartTime 0
          (set_audioContext (mkAudioContext (new_context_state h) 0)
             (set_useAudioContext true (set_destroyed false s)))),
     Resolved tt).
Proof.
  intros Hs. unfold init, mime_of in *.
  change (options (set_destroyed false s)) with (options s). rewrite Hs.
  reflexivity.
Qed.

(** X9.  init() on a host that supports the type, for a player with an
    audio element whose media source has not opened: the promise stays
    pending, and feed throws "MediaSource not opened" until "sourceopen" is
    handled.  That handler resolves the init promise, after which feed
    returns normally; a further "sourceopen" changes nothing. *)
Theorem feed_waits_for_sourceopen (h : Host) (s : SpeechPlayer)
  (a : HTMLAudioElement) (chunk : Uint8Array) :
  audio s = Some a -> mediaSourceOpened s = false ->
  supports h (mime_of s) = true ->
  snd (init h s) = Pending source_open /\
  feed chunk (fst (init h s))
  = Throw (Error "MediaSource not opened, please do this update init resolved.")
  /\
  log (run [Init h; SourceOpen] s) = log s ++ [ResolveInit] /\
  (exists s', feed chunk (run [Init h; SourceOpen] s) = Normal s') /\
  run [Init h; SourceOpen; SourceOpen] s = run [Init h; SourceOpen] s.
Proof.
  intros Ha Ho Hs. cbn [run fold_left step].
  rewrite (init_streaming h s a Ha Hs). cbn [fst snd].
  set (t := set_initResolve true _).
  assert (Hopen : sourceOpenHandle (set_mediaSource (mkMediaSource rs_open) t)
                  = set_mediaSourceOpened true
                      (set_timer 0
                         (set_sourceBuffer (mkSourceBuffer false)
                            (set_initResolve false
                               (emit ResolveInit
                                  (set_mediaSource (mkMediaSource rs_open)
                                     t)))))).
  { unfold sourceOpenHandle.
    change (initResolve (set_mediaSource (mkMediaSource rs_open) t))
      with true. cbv iota.
    change (audio (set_initResolve false
                     (emit ResolveInit
                        (set_mediaSource (mkMediaSource rs_open) t))))
      with (audio s).
    rewrite Ha. reflexivity. }
  rewrite Hopen. set (u := set_mediaSourceOpened true _).
  split; [reflexivity |]. split; [| split; [reflexivity | split]].
  - unfold feed.
    change (destroyed t) with false. change (useAudioContext t) with false.
    change (mediaSourceOpened t) with (mediaSourceOpened s).
    rewrite Ho. reflexivity.
  - unfold feed.
    change (destroyed u) with false. change (useAudioContext u) with false.
    change (mediaSourceOpened u) with true. cbv iota.
    change (negb true) with false. cbv iota.
    set (v := set_sourceBufferCache _ u).
    change (updating (sourceBuffer v)) with false.
    change (negb false) with true. cbv iota.
    change (sourceBufferCache v) with (sourceBufferCache s ++ [chunk]).
    destruct (sourceBufferCache s); eexists; reflexivity.
  - unfold sourceOpenHandle.
    change (initResolve (set_mediaSource (mkMediaSource rs_open) u))
      with false. cbv iota. reflexivity.
Qed.

Lemma feed_waits_for_sourceopen_witness :
  feed [x41] (fst (init mse_host (constructor (Some all_callbacks))))
  = Throw (Error "MediaSource not opened, please do this update init resolved.")
  /\ exists s', feed [x41] streaming_player = Normal s'.
Proof.
  destruct (feed_waits_for_sourceopen mse_host
              (constructor (Some all_callbacks)) new_Audio [x41]
              eq_refl eq_refl eq_refl) as (_ & H2 & _ & H4 & _).
  split; assumption.
Defined.

(** X10.  ManualDecode mode: destroy() closes the context and sets the flag,
    but a decode that was pending still runs its continuation when it
    succeeds: the segment is started on the closed context and nextStartTime
    advances. *)
Theorem decode_after_destroy_still_schedules (s : SpeechPlayer) (i : nat)
  (dataToDecode : Uint8Array) (buffer : AudioBuffer) :
  useAudioContext s = true ->
  nth_error (decoding s) i = Some dataToDecode ->
  let start := Qmax (nextStartTime s) (currentTime (audioContext s)) in
  let s' := run [Destroy; DecodeDone i (Normal buffer)] s in
  destroyed s' = true /\
  nextStartTime s' = (start + duration buffer)%Q /\
  exists after,
    log s' = log s ++ [ContextClose; SourceStart start buffer] ++ after.
Proof.
  intros Hu Hi start s'. subst start s'. cbn [run fold_left step].
  assert (Hdes : destroy s = set_destroyed true (emit ContextClose s))
    by (unfold destroy; rewrite Hu; reflexivity).
  rewrite Hdes. set (t := set_destroyed true _).
  change (decoding t) with (decoding s). rewrite Hi, decode_success.
  cbn [fst]. rewrite schedulePlayback_spec.
  set (u := set_decoding _ t).
  change (nextStartTime u) with (nextStartTime s).
  change (audioContext u) with (audioContext s).
  destruct (Qeq_bool _ 0 && onPlaying (options u)).
  - repeat split. exists [CallOnPlaying]. unfold emit. cbn.
    rewrite <- !app_assoc. reflexivity.
  - repeat split. exists []. unfold emit. cbn.
    rewrite <- !app_assoc. reflexivity.
Qed.

Lemma decode_after_destroy_still_schedules_witness :
  destroyed
    (run [Destroy; DecodeDone 0 (Normal (mkAudioBuffer 1))]
       first_decode_pending) = true /\
  exists after,
    log (run [Destroy; DecodeDone 0 (Normal (mkAudioBuffer 1))]
           first_decode_pending)
    = [DecodeAudioData [x41]; ContextClose; SourceStart 0 (mkAudioBuffer 1)]
      ++ after.
Proof.
  destruct (decode_after_destroy_still_schedules first_decode_pending 0
              [x41] (mkAudioBuffer 1) eq_refl eq_refl)
    as (H1 & _ & H3).
  split; [exact H1 | exact H3].
Defined.

(** X11.  A player without an audio element (constructed without options)
    that never opened a media source.  On a host that supports the type,
    init() rejects with a TypeError, "sourceopen" then opens nothing and feed
    keeps throwing "MediaSource not opened".  On a host that does not, init()
    resolves at once and feed returns normally. *)
Theorem init_without_audio (h : Host) (s : SpeechPlayer)
  (chunk : Uint8Array) :
  audio s = None -> initResolve s = false -> mediaSourceOpened s = false ->
  (supports h (mime_of s) = true ->
   snd (init h s) = Rejected TypeError /\
   feed chunk (run [Init h; SourceOpen] s)
   = Throw
       (Error "MediaSource not opened, please do this update init resolved."))
  /\
  (supports h (mime_of s) = false ->
   snd (init h s) = Resolved tt /\
   exists s', feed chunk (fst (init h s)) = Normal s').
Proof.
  intros Ha Hr Ho. split; intros Hs.
  - cbn [run fold_left step]. rewrite (init_rejected h s Ha Hs).
    cbn [fst snd]. split; [reflexivity |].
    set (t := set_mediaSource (mkMediaSource rs_open) _).
    assert (Hopen : sourceOpenHandle t = t).
    { unfold sourceOpenHandle.
      change (initResolve t) with (initResolve s). rewrite Hr. reflexivity. }
    rewrite Hopen. unfold feed.
    change (destroyed t) with false. change (useAudioContext t) with false.
    change (mediaSourceOpened t) with (mediaSourceOpened s).
    rewrite Ho. reflexivity.
  - rewrite (init_fallback h s Hs). cbn [fst snd]. split; [reflexivity |].
    rewrite feed_manual by reflexivity. eexists. reflexivity.
Qed.

Lemma init_without_audio_witness :
  snd (init mse_host (constructor None)) = Rejected TypeError /\
  snd (init fallback_host (constructor None)) = Resolved tt.
Proof.
  destruct (init_without_audio mse_host (constructor None) [x41]
              eq_refl eq_refl eq_refl) as [H1 _].
  destruct (init_without_audio fallback_host (constructor None) [x41]
              eq_refl eq_refl eq_refl) as [_ H2].
  split; [apply H1 | apply H2]; reflexivity.
Defined.

(** ** feedWithResponse *)

(** feed returns normally exactly when [rejects] is false, and then the
    next feed is not rejected either. *)
Lemma feed_accepts (chunk : Uint8Array) (s : SpeechPlayer) :
  rejects s = false ->
  exists s', feed chunk s = Normal s' /\ rejects s' = false.
Proof.
  unfold rejects. intros Hr. apply orb_false_iff in Hr.
  destruct Hr as [Hd Hr]. destruct (useAudioContext s) eqn:Hu.
  - rewrite feed_manual by assumption. eexists. split; [reflexivity |].
    destruct (processAudioContextQueue_stream
                (set_pendingBuffer (pendingBuffer s ++ chunk) s))
      as (_ & Hu1 & Hd1).
    rewrite Hu1, Hd1. cbn. rewrite Hd, Hu. reflexivity.
  - cbn in Hr. apply negb_false_iff in Hr.
    unfold feed. rewrite Hd, Hu, Hr. cbn.
    destruct (updating (sourceBuffer s)); cbn.
    + eexists. split; [reflexivity |]. cbn. rewrite Hd, Hu, Hr. reflexivity.
    + destruct (sourceBufferCache s); cbn; eexists;
        (split; [reflexivity |]); cbn; rewrite Hd, Hu, Hr; reflexivity.
Qed.

Lemma feed_rejects (chunk : Uint8Array) (s : SpeechPlayer) :
  rejects s = true -> throws (feed chunk s).
Proof.
  unfold rejects, feed, throws. intros Hr.
  destruct (destroyed s); [eexists; reflexivity |].
  destruct (useAudioContext s); [discriminate Hr |].
  destruct (mediaSourceOpened s); [discriminate Hr |].
  eexists. reflexivity.
Qed.

(** Events other than init and destroy do not make feed throw. *)
Lemma step_alive_accepts (s : SpeechPlayer) (e : event) :
  alive e = true -> rejects s = false -> rejects (step s e) = false.
Proof.
  unfold rejects. intros He Hr. apply orb_false_iff in Hr.
  destruct Hr as [Hd Hr]. destruct (useAudioContext s) eqn:Hu.
  - destruct (step_alive_manual s e He Hd Hu) as (Hd1 & Hu1 & _).
    rewrite Hd1, Hu1. reflexivity.
  - cbn in Hr. apply negb_false_iff in Hr.
    destruct (step_queue s e He Hd Hu Hr) as (Hd1 & Hu1 & Ho1 & _).
    rewrite Hd1, Hu1, Ho1. reflexivity.
Qed.

Lemma run_alive_accepts (tr : list event) (s : SpeechPlayer) :
  forallb alive tr = true -> rejects s = false -> rejects (run tr s) = false.
Proof.
  revert s. induction tr as [| e tr IH]; intros s Htr Hr; [exact Hr |].
  cbn [forallb] in Htr. apply andb_true_iff in Htr. destruct Htr as [He Htr].
  change (run (e :: tr) s) with (run tr (step s e)).
  apply IH; [exact Htr |]. apply step_alive_accepts; assumption.
Qed.

Lemma run_app (tr1 tr2 : list event) (s : SpeechPlayer) :
  run (tr1 ++ tr2) s = run tr2 (run tr1 s).
Proof. unfold run. apply fold_left_app. Qed.

(** X12.  feedWithResponse on a player that accepts chunks.  As long as
    every read succeeds and neither init nor destroy is called between the
    reads, every chunk is fed, in order, among the events that take place
    meanwhile.  When something between two reads makes the player reject
    chunks (destroy() does), the chunks read before have been fed, the next
    feed throws and the rest of the response is not fed; a failed read ends
    the loop in the same way.  In every case the reader's lock is released
    once, at the end. *)
Theorem feedWithResponse_feeds_until_rejected
  (done_part rest : list (list event * completion Uint8Array))
  (between : list event) (chunk : Uint8Array) (s : SpeechPlayer) :
  rejects s = false -> forallb calm done_part = true ->
  feedWithResponse done_part s
  = (emit ReleaseLock (run (fed_trace done_part) s), None) /\
  (rejects (run between (run (fed_trace done_part) s)) = true ->
   exists e,
     feedWithResponse (done_part ++ (between, Normal chunk) :: rest) s
     = (emit ReleaseLock (run (fed_trace done_part ++ between) s), Some e)) /\
  (forall e,
     feedWithResponse (done_part ++ (between, Throw e) :: rest) s
     = (emit ReleaseLock (run (fed_trace done_part ++ between) s), Some e)).
Proof.
  revert s. induction done_part as [| [before read] done_part IH];
    intros s Hr Hcalm.
  - cbn [fed_trace app]. change (run [] s) with s.
    split; [reflexivity |]. split; [| reflexivity].
    intros Hrej. destruct (feed_rejects chunk _ Hrej) as [e He].
    exists e. cbn [feedWithResponse]. cbv zeta. rewrite He. reflexivity.
  - cbn [forallb] in Hcalm. apply andb_true_iff in Hcalm.
    destruct Hcalm as [Hread Hcalm]. unfold calm in Hread. cbn in Hread.
    apply andb_true_iff in Hread. destruct Hread as [Hbefore Hok].
    destruct read as [first | err]; [| discriminate Hok].
    pose proof (run_alive_accepts before s Hbefore Hr) as Hr1.
    destruct (feed_accepts first _ Hr1) as (s2 & Hf & Hr2).
    destruct (IH s2 Hr2 Hcalm) as (IH1 & IH2 & IH3).
    assert (Hrun : forall tl,
               run ((before ++ Feed first :: fed_trace done_part) ++ tl) s
               = run (fed_trace done_part ++ tl) s2).
    { intros tl. rewrite <- app_assoc, run_app. cbn [app].
      change (run (Feed first :: fed_trace done_part ++ tl) (run before s))
        with (run (fed_trace done_part ++ tl)
                (step (run before s) (Feed first))).
      cbn [step]. rewrite Hf. reflexivity. }
    cbn [fed_trace app feedWithResponse]. rewrite Hf.
    split; [| split].
    + rewrite IH1. pose proof (Hrun []) as H0. rewrite !app_nil_r in H0.
      rewrite H0. reflexivity.
    + intros Hrej. rewrite Hrun.
      pose proof (Hrun []) as H0. rewrite !app_nil_r in H0.
      rewrite H0 in Hrej. apply IH2. exact Hrej.
    + intros e. rewrite Hrun. apply IH3.
Qed.

Lemma feedWithResponse_feeds_until_rejected_witness :
  exists e,
    feedWithResponse
      [([], Normal [x01]); ([Destroy], Normal [x02]); ([], Normal [x03])]
      streaming_player
    = (emit ReleaseLock (run [Feed [x01]; Destroy] streaming_player), Some e).
Proof.
  apply (feedWithResponse_feeds_until_rejected [([], Normal [x01])]
           [([], Normal [x03])] [Destroy] [x02] streaming_player);
    reflexivity.
Defined.

(** ** Consecutive segments *)

Lemma run_advancing (tr : list event) (s : SpeechPlayer) :
  forallb advancing tr = true ->
  (nextStartTime s <= nextStartTime (run tr s))%Q.
Proof.
  revert s. induction tr as [| e tr IH]; intros s Htr; [apply Qle_refl |].
  cbn [forallb] in Htr. apply andb_true_iff in Htr. destruct Htr as [He Htr].
  change (run (e :: tr) s) with (run tr (step s e)).
  apply Qle_trans with (nextStartTime (step s e));
    [apply step_advancing | apply IH]; assumption.
Qed.

(** X13.  A segment is scheduled, any events follow (no init, no segment of
    negative duration), and a second segment is scheduled.  The second
    starts no earlier than the first ends and no earlier than currentTime;
    when the play-head is not behind the clock it starts exactly at the
    play-head, without a gap. *)
Theorem segments_do_not_overlap (s : SpeechPlayer) (first second : AudioBuffer)
  (tr : list event) :
  forallb advancing tr = true ->
  let start1 := Qmax (nextStartTime s) (currentTime (audioContext s)) in
  let s2 := run tr (schedulePlayback first s) in
  let start2 := Qmax (nextStartTime s2) (currentTime (audioContext s2)) in
  log (schedulePlayback second s2) = log s2 ++ [SourceStart start2 second] /\
  (start1 + duration first <= start2)%Q /\
  (currentTime (audioContext s2) <= start2)%Q /\
  ((currentTime (audioContext s2) <= nextStartTime s2)%Q ->
   start2 = nextStartTime s2).
Proof.
  intros Htr start1 s2 start2. subst start1 start2.
  split; [rewrite schedulePlayback_spec; reflexivity |].
  split; [| split].
  - pose proof (run_advancing tr (schedulePlayback first s) Htr) as Hle.
    fold s2 in Hle. rewrite schedulePlayback_spec in Hle at 1.
    cbn [nextStartTime set_sources set_nextStartTime] in Hle.
    apply Qle_trans with (nextStartTime s2); [exact Hle |].
    apply Q.le_max_l.
  - apply Q.le_max_r.
  - intros Hle. unfold Qmax, GenericMinMax.gmax.
    destruct (nextStartTime s2 ?= currentTime (audioContext s2))%Q eqn:Hc;
      try reflexivity.
    apply Qlt_alt in Hc. exfalso. apply (Qlt_not_le _ _ Hc). exact Hle.
Qed.

Lemma segments_do_not_overlap_witness :
  log (schedulePlayback (mkAudioBuffer (3 # 4))
         (run [Clock (1 # 4)]
            (schedulePlayback (mkAudioBuffer (1 # 2)) manual_player)))
  = [SourceStart 0 (mkAudioBuffer (1 # 2));
     SourceStart (0 + (1 # 2)) (mkAudioBuffer (3 # 4))].
Proof.
  apply (segments_do_not_overlap manual_player (mkAudioBuffer (1 # 2))
           (mkAudioBuffer (3 # 4)) [Clock (1 # 4)]).
  reflexivity.
Defined.

(** ** The "ended" listener after one init *)

Lemma onended_silent_without_reinit_witness :
  sources (run sample_one_segment manual_player) = 1%nat /\
  calls CallOnChunkEnd (step (run sample_one_segment manual_player) Ended)
  = O.
Proof.
  split; [reflexivity |].
  pose proof (onended_silent_without_reinit (Some all_callbacks)
                fallback_host sample_one_segment eq_refl) as H.
  cbv zeta in H.
  change (fst (init fallback_host (constructor (Some all_callbacks))))
    with manual_player in H.
  rewrite H. vm_compute. reflexivity.
Defined.

(** ** The two pipelines *)

Ltac isolated :=
  unfold destroy, on_waiting, on_updateend, on_stall_timeout, on_playing,
    on_pause, sourceOpenHandle, play, pause, play_resumed, pause_suspended,
    onended, schedulePlayback, paused, playing, setTimeout, clearTimeout,
    expire, appendBuffer, endOfStream, audio_play, audio_pause, call, emit;
  cbn; split_ifs; cbn;
  rewrite ?submitted_app, ?appended_app; cbn; rewrite ?app_nil_r; auto.

Lemma step_streaming_isolated (s : SpeechPlayer) (e : event) :
  same_init e = true ->
  useAudioContext s = false -> decoding s = [] ->
  useAudioContext (step s e) = false /\
  decoding (step s e) = [] /\
  pendingBuffer (step s e) = pendingBuffer s /\
  submitted (log (step s e)) = submitted (log s).
Proof.
  intros He Hu Hdec. destruct e; try discriminate He; cbn [step].
  - unfold feed. rewrite Hu. destruct (destroyed s); [cbn; auto |].
    destruct (mediaSourceOpened s); cbn; [| auto].
    destruct (updating (sourceBuffer s)); cbn; [auto |].
    destruct (sourceBufferCache s); isolated.
  - unfold play. rewrite Hu. isolated.
  - unfold pause. rewrite Hu. isolated.
  - unfold destroy. rewrite Hu. isolated.
  - isolated.
  - isolated.
  - isolated.
  - destruct (task_of id s) as [[|] |]; isolated.
  - isolated.
  - isolated.
  - rewrite Hdec. destruct i; cbn; auto.
  - destruct (sources s); isolated.
  - isolated.
  - isolated.
  - isolated.
Qed.

Lemma step_manual_isolated (s : SpeechPlayer) (e : event) :
  same_init e = true ->
  useAudioContext s = true -> sourceBufferCache s = [] ->
  useAudioContext (step s e) = true /\
  sourceBufferCache (step s e) = [] /\
  appended (log (step s e)) = appended (log s).
Proof.
  intros He Hu Hc. destruct e; try discriminate He; cbn [step].
  - unfold feed. destruct (destroyed s); [cbn; auto |]. rewrite Hu.
    rewrite set_from_front by apply length_of_nonneg. cbn [bind].
    rewrite set_from_back. cbn [bind or_else].
    destruct (processAudioContextQueue_cases
                (set_pendingBuffer (pendingBuffer s ++ chunk) s))
      as [-> | (c & _ & _ & ->)]; isolated.
  - unfold play. rewrite Hu. isolated.
  - unfold pause. rewrite Hu. isolated.
  - unfold destroy. rewrite Hu. isolated.
  - isolated.
  - unfold on_updateend, clearTimeout, audio_play, appendBuffer, emit. cbn.
    destruct (timer s =? 0); cbn; destruct (audio s) as [[[|]] |]; cbn;
      rewrite ?Hc; cbn; rewrite ?appended_app; cbn; rewrite ?app_nil_r;
      auto.
  - isolated.
  - destruct (task_of id s) as [[|] |]; isolated.
  - isolated.
  - isolated.
  - destruct (nth_error (decoding s) i); [| auto].
    destruct result as [buffer | err].
    + rewrite decode_success. cbn [fst]. isolated.
    + rewrite decode_failure. cbn [fst]. isolated.
  - destruct (sources s); isolated.
  - isolated.
  - isolated.
  - isolated.
Qed.

(** X15.  Between two inits the pipelines do not mix.  A StreamingBuffer
    player with no decode pending never changes pendingBuffer and never
    calls the decoder; a ManualDecode player with an empty chunk queue never
    queues a chunk and never calls appendBuffer. *)
Theorem pipelines_isolated (s : SpeechPlayer) (tr : list event) :
  forallb same_init tr = true ->
  (useAudioContext s = false -> decoding s = [] ->
   pendingBuffer (run tr s) = pendingBuffer s /\
   submitted (log (run tr s)) = submitted (log s)) /\
  (useAudioContext s = true -> sourceBufferCache s = [] ->
   sourceBufferCache (run tr s) = [] /\
   appended (log (run tr s)) = appended (log s)).
Proof.
  revert s. induction tr as [| e tr IH]; intros s Htr; [cbn; auto |].
  cbn [forallb] in Htr. apply andb_true_iff in Htr. destruct Htr as [He Htr].
  change (run (e :: tr) s) with (run tr (step s e)).
  destruct (IH (step s e) Htr) as [IH1 IH2]. split.
  - intros Hu Hdec.
    destruct (step_streaming_isolated s e He Hu Hdec) as (H1 & H2 & H3 & H4).
    destruct (IH1 H1 H2) as [H5 H6]. rewrite H5, H6. auto.
  - intros Hu Hc.
    destruct (step_manual_isolated s e He Hu Hc) as (H1 & H2 & H3).
    destruct (IH2 H1 H2) as [H4 H5]. rewrite H4, H5. auto.
Qed.

Lemma pipelines_isolated_witness :
  submitted (log (run sample_mixed streaming_player)) = [] /\
  appended (log (run sample_mixed manual_player)) = [].
Proof.
  destruct (pipelines_isolated streaming_player sample_mixed eq_refl)
    as [H1 _].
  destruct (pipelines_isolated manual_player sample_mixed eq_refl)
    as [_ H2].
  split; [apply H1 | apply H2]; reflexivity.
Defined.

(** ** Suspending and resuming in ManualDecode mode *)

(** X16.  ManualDecode mode with a running context: pause() asks the
    context to suspend and calls onPause once it has; the player is then
    paused.  play() after that asks it to resume and calls onPlaying once
    it has; the player is playing again.  The buffer and the play-head are
    not touched. *)
Theorem suspend_resume_round_trip (s : SpeechPlayer) :
  useAudioContext s = true -> ctx_state (audioContext s) = running ->
  snd (pause s) = Pending suspend_done /\
  paused (run [Pause; Suspended] s) = true /\
  snd (play (run [Pause; Suspended] s)) = Pending resume_done /\
  playing (run [Pause; Suspended; Play; Resumed] s) = true /\
  log (run [Pause; Suspended; Play; Resumed] s)
  = log s ++ [ContextSuspend]
    ++ (if onPause (options s) then [CallOnPause] else [])
    ++ [ContextResume]
    ++ (if onPlaying (options s) then [CallOnPlaying] else []) /\
  pendingBuffer (run [Pause; Suspended; Play; Resumed] s) = pendingBuffer s /\
  nextStartTime (run [Pause; Suspended; Play; Resumed] s) = nextStartTime s.
Proof.
  intros Hu Hr. cbn [run fold_left step].
  unfold pause, play, playing, paused, play_resumed, pause_suspended, call,
    emit.
  destruct (onPause (options s)) eqn:E1, (onPlaying (options s)) eqn:E2;
    do 5 (cbn; rewrite ?Hu, ?Hr, ?E1, ?E2);
    rewrite <- ?app_assoc; cbn; repeat split.
Qed.

Lemma suspend_resume_round_trip_witness :
  log (run [Pause; Suspended; Play; Resumed] manual_player)
  = [ContextSuspend; CallOnPause; ContextResume; CallOnPlaying].
Proof.
  apply (suspend_resume_round_trip manual_player); reflexivity.
Defined.
